(** * Debate Arena API: the join workflow and the leaderboard aggregation

    A shallow embedding of [src/index.js]: the handler of
    [POST /debates/:id/join] and the handler of [GET /leaderboard], over an
    explicit model of the three MongoDB collections the handlers use.

    - The [debates] collection is a finite map from [_id] to document
      (MongoDB enforces uniqueness of [_id]).
    - The [joinedDebate] and [leaderboard] collections carry no unique index
      in the source, so they are lists of documents in insertion order;
      [findOne]/[updateOne] act on the first matching document.
    - An [await]ed store operation is one synchronous state transformer;
      the store itself never fails in this model, so the only way into a
      [catch] block is an exception thrown by the handler's own code. *)

From Stdlib Require Import ZArith Ascii Lia.
From stdpp Require Import gmap strings list sorting fin_maps fin_sets.

Local Open Scope string_scope.
Local Open Scope list_scope.
Local Open Scope stdpp_scope.
Local Open Scope Z_scope.

(** ** JavaScript values *)

Module JS.

(** The values a field of a parsed JSON body can hold, as far as the handlers
    distinguish them.  [JUndefined] is a missing property.  Numbers are
    represented by integers: the falsy numbers of a JSON body are [0] and
    [-0], both [JNum 0] here.  Participant names that are arrays or objects
    are outside this model (MongoDB reads an object operand of [$pull] as a
    query, not as a value). *)
Inductive jsval : Type :=
  | JUndefined
  | JNull
  | JBool (b : bool)
  | JNum (n : Z)
  | JStr (s : string).

#[export] Instance jsval_eq_dec : EqDecision jsval.
Proof. solve_decision. Defined.

(** [ToBoolean]: what [!v] negates. *)
Definition truthy (v : jsval) : bool :=
  match v with
  | JUndefined | JNull => false
  | JBool b => b
  | JNum n => negb (n =? 0)
  | JStr s => negb (String.eqb s "")
  end.

(** [arr.includes(v)] compares with SameValueZero, which on the values of
    this model is equality. *)
Definition includes (arr : list jsval) (v : jsval) : bool :=
  bool_decide (v ∈ arr).

(** [String.prototype.toLowerCase] on the ASCII letters. *)
Definition lower_ascii (c : ascii) : ascii :=
  let n := N_of_ascii c in
  if ((65 <=? n) && (n <=? 90))%N then ascii_of_N (n + 32) else c.

Fixpoint toLowerCase (s : string) : string :=
  match s with
  | EmptyString => EmptyString
  | String c s' => String (lower_ascii c) (toLowerCase s')
  end.

(** A value of [req.query]: absent, a string, or the array or object the
    query-string parser builds for repeated or bracketed keys. *)
Inductive qval : Type :=
  | QAbsent
  | QStr (s : string)
  | QCompound.

#[export] Instance qval_eq_dec : EqDecision qval.
Proof. solve_decision. Defined.

End JS.
Export JS.

(** ** ObjectId *)

(** A MongoDB [ObjectId] is 12 bytes, held here as the number they spell. *)
Definition ObjectId : Type := N.

Definition hex_digit (c : ascii) : option N :=
  let n := N_of_ascii c in
  if ((48 <=? n) && (n <=? 57))%N then Some (n - 48)%N
  else if ((65 <=? n) && (n <=? 70))%N then Some (n - 55)%N
  else if ((97 <=? n) && (n <=? 102))%N then Some (n - 87)%N
  else None.

Fixpoint parse_hex (acc : N) (s : string) : option N :=
  match s with
  | EmptyString => Some acc
  | String c s' =>
      match hex_digit c with
      | Some d => parse_hex (16 * acc + d)%N s'
      | None => None
      end
  end.

(** [new ObjectId(id)] for a string [id]: a string of 24 hexadecimal digits
    gives the identifier, upper and lower case alike; [None] is the
    [BSONError] the constructor throws on any other string.  (Releases of
    the driver before bson 6 also took a string of 12 characters for the 12
    bytes; that form is not modelled.) *)
Definition new_ObjectId (id : string) : option ObjectId :=
  if decide (String.length id = 24%nat) then parse_hex 0%N id else None.

(** ** Documents and collections *)

(** A document of the [debates] collection, as [POST /debates] creates it.
    The array-valued fields ([support], [oppose]) are kept in a map from
    field name to array, because the handler computes the name of the field
    it updates. *)
Record Debate : Type := mkDebate {
  title : jsval;
  description : jsval;
  tags : list string;
  category : jsval;
  duration : jsval;
  createdAt : Z;
  arrays : gmap string (list jsval);
}.

Definition array_field (f : string) (d : Debate) : list jsval :=
  default [] (arrays d !! f).

Definition support (d : Debate) : list jsval := array_field "support" d.
Definition oppose (d : Debate) : list jsval := array_field "oppose" d.

Definition with_arrays (d : Debate) (a : gmap string (list jsval)) : Debate :=
  mkDebate (title d) (description d) (tags d) (category d) (duration d)
           (createdAt d) a.

(** A document of the [joinedDebate] collection: the fields the upsert sets.
    (The [_id] MongoDB generates on insertion is never read and is left
    out.) *)
Record JoinedDebate : Type := mkJoined {
  j_debateId : string;
  j_name : jsval;
  j_side : jsval;
  j_title : jsval;
  j_description : jsval;
  j_category : jsval;
  j_duration : jsval;
  j_tags : list string;
  j_joinedAt : Z;
}.

(** A document of the [leaderboard] collection (the source's
    [argumentsCollection]), with the fields the aggregation reads. *)
Record VoteRecord : Type := mkVote {
  userName : string;
  debateId : string;
  votes : Z;
  v_createdAt : Z;
}.

Record Store : Type := mkStore {
  debateCollection : gmap ObjectId Debate;
  joinedDebateCollection : list JoinedDebate;
  argumentsCollection : list VoteRecord;
}.

(** ** Update operators *)

(** [$pull: { f: v }] on an array: every element equal to [v] goes. *)
Definition pull (v : jsval) (l : list jsval) : list jsval :=
  filter (λ x, x ≠ v) l.

(** [$addToSet: { f: v }] on an array: [v] is appended unless present. *)
Definition addToSet (v : jsval) (l : list jsval) : list jsval :=
  if decide (v ∈ l) then l else l ++ [v].

(** [{ $pull: { support: name, oppose: name } }]: a missing field is left
    missing. *)
Definition pull_both (name : jsval) (d : Debate) : Debate :=
  with_arrays d (alter (pull name) "oppose" (alter (pull name) "support" (arrays d))).

(** [{ $addToSet: { [sideField]: name } }]: a missing field is created. *)
Definition addToSet_field (sideField : string) (name : jsval) (d : Debate) : Debate :=
  with_arrays d (<[sideField := addToSet name (array_field sideField d)]> (arrays d)).

(** [debateCollection.updateOne({ _id }, update)]: no document, no change. *)
Definition updateOne_debate (oid : ObjectId) (update : Debate → Debate)
    (st : Store) : Store :=
  mkStore (alter update oid (debateCollection st))
          (joinedDebateCollection st) (argumentsCollection st).

(** The filter [{ debateId: id, name }]. *)
Definition joined_key (id : string) (name : jsval) (r : JoinedDebate) : Prop :=
  j_debateId r = id ∧ j_name r = name.

#[export] Instance joined_key_dec id name r : Decision (joined_key id name r).
Proof. unfold joined_key. apply _. Defined.

(** [updateOne(filter, { $set: doc }, { upsert: true })] where [doc] sets
    every field of the document: the first match is overwritten, and with no
    match the document is inserted. *)
Fixpoint upsert_joined (id : string) (name : jsval) (doc : JoinedDebate)
    (l : list JoinedDebate) : list JoinedDebate :=
  match l with
  | [] => [doc]
  | r :: l' =>
      if decide (joined_key id name r) then doc :: l'
      else r :: upsert_joined id name doc l'
  end.

Definition updateOne_joined (id : string) (name : jsval) (doc : JoinedDebate)
    (st : Store) : Store :=
  mkStore (debateCollection st)
          (upsert_joined id name doc (joinedDebateCollection st))
          (argumentsCollection st).

(** [joinedDebateCollection.findOne({ name, debateId })]. *)
Definition findOne_joined (id : string) (name : jsval) (st : Store)
    : option JoinedDebate :=
  head (filter (joined_key id name) (joinedDebateCollection st)).

(** ** POST /debates/:id/join *)

(** What the handler sends: the status and the [message] or [error] text. *)
Record Response : Type := mkResponse {
  status : Z;
  body : string;
}.

Definition error_400 : Response :=
  mkResponse 400 "Name and valid side are required (Support or Oppose)".
Definition error_404 : Response := mkResponse 404 "Debate not found".
Definition error_500 : Response := mkResponse 500 "Internal server error".

(** The handler.  [id] is [req.params.id], [name] and [side] are the two
    properties read from [req.body], [now] is the clock reading of the
    [new Date()] in the upsert.  The result is the response and the store
    the handler leaves. *)
Definition join (st : Store) (id : string) (name side : jsval) (now : Z)
    : Response * Store :=
  if negb (truthy name) || negb (includes [JStr "Support"; JStr "Oppose"] side)
  then (error_400, st)
  else
    match new_ObjectId id with
    | None => (error_500, st)
    | Some oid =>
        match debateCollection st !! oid with
        | None => (error_404, st)
        | Some debate =>
            let st1 := updateOne_debate oid (pull_both name) st in
            match side with
            | JStr s =>
                let sideField := toLowerCase s in
                let st2 := updateOne_debate oid (addToSet_field sideField name) st1 in
                let doc :=
                  mkJoined id name side (title debate) (description debate)
                           (category debate) (duration debate) (tags debate) now in
                let st3 := updateOne_joined id name doc st2 in
                (mkResponse 200 ("Successfully joined the debate as " +:+ s), st3)
            | _ => (error_500, st1)
            end
        end
    end.

(** Repeated calls with the same arguments, one clock reading per call:
    the responses in order, and the final store. *)
Fixpoint join_repeat (st : Store) (id : string) (name side : jsval)
    (clock : list Z) : list Response * Store :=
  match clock with
  | [] => ([], st)
  | now :: clock' =>
      let '(r, st') := join st id name side now in
      let '(rs, st'') := join_repeat st' id name side clock' in
      (r :: rs, st'')
  end.

(** ** The outcomes of the join handler *)

(** What the first guard of the handler lets through. *)
Definition accepted (name side : jsval) : Prop :=
  truthy name = true ∧ (side = JStr "Support" ∨ side = JStr "Oppose").

(** The store a successful call leaves. *)
Definition joined_store (st : Store) (id : string) (oid : ObjectId) (d : Debate)
    (name : jsval) (s : string) (now : Z) : Store :=
  mkStore
    (<[oid := addToSet_field (toLowerCase s) name (pull_both name d)]>
       (debateCollection st))
    (upsert_joined id name
       (mkJoined id name (JStr s) (title d) (description d) (category d)
                 (duration d) (tags d) now)
       (joinedDebateCollection st))
    (argumentsCollection st).

(** Every outcome of the handler. *)
Inductive join_outcome (st : Store) (id : string) (name side : jsval) (now : Z)
    : Response * Store → Prop :=
  | join_400 :
      ¬ accepted name side →
      join_outcome st id name side now (error_400, st)
  | join_500 :
      accepted name side → new_ObjectId id = None →
      join_outcome st id name side now (error_500, st)
  | join_404 oid :
      accepted name side → new_ObjectId id = Some oid →
      debateCollection st !! oid = None →
      join_outcome st id name side now (error_404, st)
  | join_200 oid d s :
      accepted name side → side = JStr s → new_ObjectId id = Some oid →
      debateCollection st !! oid = Some d →
      join_outcome st id name side now
        (mkResponse 200 ("Successfully joined the debate as " +:+ s),
         joined_store st id oid d name s now).

(** No key of the [joinedDebate] collection has two documents. *)
Definition joined_unique (l : list JoinedDebate) : Prop :=
  ∀ id name, (length (filter (joined_key id name) l) ≤ 1)%nat.

(** ** Dates *)

(** The time functions of ECMAScript (ECMA-262, "Date Objects") that
    [getFullYear], [getMonth], [getDate] and the constructor
    [new Date(year, month, date)] are made of.  A time value is a number of
    milliseconds since the epoch; [TimeClip] (values beyond 8.64e15 ms) is
    not modelled. *)
Module Date.

Definition msPerDay : Z := 86400000.

Definition Day (t : Z) : Z := t / msPerDay.
Definition TimeWithinDay (t : Z) : Z := t mod msPerDay.

Definition DaysInYear (y : Z) : Z :=
  if negb (y mod 4 =? 0) then 365
  else if negb (y mod 100 =? 0) then 366
  else if negb (y mod 400 =? 0) then 365
  else 366.

Definition DayFromYear (y : Z) : Z :=
  365 * (y - 1970) + (y - 1969) / 4 - (y - 1901) / 100 + (y - 1601) / 400.

Definition TimeFromYear (y : Z) : Z := msPerDay * DayFromYear y.

(** The largest [y] with [TimeFromYear y <= t]: an estimate from the mean
    length of a year, corrected by one year where it is off. *)
Definition YearFromTime (t : Z) : Z :=
  let d := Day t in
  let y := 1970 + (400 * d) / 146097 in
  if d <? DayFromYear y then y - 1
  else if DayFromYear (y + 1) <=? d then y + 1
  else y.

Definition InLeapYear (t : Z) : Z :=
  if DaysInYear (YearFromTime t) =? 366 then 1 else 0.

Definition DayWithinYear (t : Z) : Z := Day t - DayFromYear (YearFromTime t).

(** The day within the year on which month [m] (0 to 11) begins, [leap]
    being 1 in a leap year and 0 otherwise. *)
Definition month_start (leap m : Z) : Z :=
  match m with
  | 0 => 0
  | 1 => 31
  | 2 => 59 + leap
  | 3 => 90 + leap
  | 4 => 120 + leap
  | 5 => 151 + leap
  | 6 => 181 + leap
  | 7 => 212 + leap
  | 8 => 243 + leap
  | 9 => 273 + leap
  | 10 => 304 + leap
  | _ => 334 + leap
  end.

Definition MonthFromTime (t : Z) : Z :=
  let d := DayWithinYear t in
  let leap := InLeapYear t in
  if d <? 31 then 0
  else if d <? 59 + leap then 1
  else if d <? 90 + leap then 2
  else if d <? 120 + leap then 3
  else if d <? 151 + leap then 4
  else if d <? 181 + leap then 5
  else if d <? 212 + leap then 6
  else if d <? 243 + leap then 7
  else if d <? 273 + leap then 8
  else if d <? 304 + leap then 9
  else if d <? 334 + leap then 10
  else 11.

Definition DateFromTime (t : Z) : Z :=
  DayWithinYear t - month_start (InLeapYear t) (MonthFromTime t) + 1.

(** [MakeDay(year, month, date)]: the day number of the first of the month,
    months beyond 0..11 carrying into the year, plus [date - 1]. *)
Definition MakeDay (year month date : Z) : Z :=
  let ym := year + month / 12 in
  let mn := month mod 12 in
  let leap := if DaysInYear ym =? 366 then 1 else 0 in
  DayFromYear ym + month_start leap mn + date - 1.

Definition MakeDate (day time : Z) : Z := day * msPerDay + time.

(** [MakeFullYear]: a year from 0 to 99 means 1900 + year. *)
Definition MakeFullYear (y : Z) : Z :=
  if (0 <=? y) && (y <=? 99) then 1900 + y else y.

(** The host's time zone: [LocalTZA t true] is the offset of local time from
    UTC at the UTC time [t], [LocalTZA t false] the offset at the local time
    [t]. *)
Record Host : Type := mkHost {
  LocalTZA : Z → bool → Z;
}.

Definition LocalTime (h : Host) (t : Z) : Z := t + LocalTZA h t true.
Definition UTC (h : Host) (t : Z) : Z := t - LocalTZA h t false.

Definition getFullYear (h : Host) (t : Z) : Z := YearFromTime (LocalTime h t).
Definition getMonth (h : Host) (t : Z) : Z := MonthFromTime (LocalTime h t).
Definition getDate (h : Host) (t : Z) : Z := DateFromTime (LocalTime h t).

(** [new Date(year, month, date)]: local midnight of that day, as a UTC
    time value. *)
Definition new_Date (h : Host) (year month date : Z) : Z :=
  UTC h (MakeDate (MakeDay (MakeFullYear year) month date) 0).

(** A host that runs on UTC. *)
Definition utc_host : Host := mkHost (λ _ _, 0).

End Date.
Export Date.

(** ** GET /leaderboard *)

(** [$group]: the documents of a stage are partitioned by key, and the
    accumulators of the stage are applied to each group.  MongoDB fixes no
    order for the groups; here they come in order of first appearance, each
    group's documents in input order. *)
Section Group.

Context {A K : Type} `{EqDecision K}.

Fixpoint group_add (k : K) (a : A) (gs : list (K * list A)) : list (K * list A) :=
  match gs with
  | [] => [(k, [a])]
  | (k', members) :: gs' =>
      if decide (k' = k) then (k', members ++ [a]) :: gs'
      else (k', members) :: group_add k a gs'
  end.

Definition group_by (key : A → K) (l : list A) : list (K * list A) :=
  foldl (λ gs a, group_add (key a) a gs) [] l.

(** The accumulator [$sum]. *)
Definition sum_of (f : A → Z) (l : list A) : Z :=
  foldr (λ a acc, f a + acc) 0 l.

(** The keys of the groups, in order of first appearance. *)
Fixpoint keys_add (k : K) (ks : list K) : list K :=
  match ks with
  | [] => [k]
  | k' :: ks' => if decide (k' = k) then k' :: ks' else k' :: keys_add k ks'
  end.

Definition group_keys (key : A → K) (l : list A) : list K :=
  foldl (λ ks a, keys_add (key a) ks) [] l.

(** The group of key [k]: the documents of that key, in input order. *)
Definition group_of (key : A → K) (l : list A) (k : K) : K * list A :=
  (k, filter (λ a, key a = k) l).

End Group.

(** A document after the first [$group]. *)
Record DebateRow : Type := mkRow {
  row_userName : string;
  row_debateId : string;
  totalVotesPerDebate : Z;
}.

(** A document of the result. *)
Record LeaderboardEntry : Type := mkEntry {
  _id : string;
  totalVotes : Z;
  debatesParticipated : Z;
}.

(** [req.query.filter || 'all']. *)
Definition filter_or_all (q : qval) : qval :=
  match q with
  | QAbsent => QStr "all"
  | QStr s => if String.eqb s "" then QStr "all" else QStr s
  | QCompound => QCompound
  end.

(** [startDate], [None] for [null]. *)
Definition startDate (h : Host) (now : Z) (filter : qval) : option Z :=
  if decide (filter = QStr "weekly") then
    Some (new_Date h (getFullYear h now) (getMonth h now) (getDate h now - 7))
  else if decide (filter = QStr "monthly") then
    Some (new_Date h (getFullYear h now) (getMonth h now - 1) (getDate h now))
  else None.

(** [{ $match: matchStage }]. *)
Definition match_stage (start : option Z) (l : list VoteRecord) : list VoteRecord :=
  match start with
  | Some s => filter (λ r, s ≤ v_createdAt r) l
  | None => l
  end.

(** The [_id] of the first [$group]: [{ userName, debateId }]. *)
Definition vote_key (r : VoteRecord) : string * string :=
  (userName r, debateId r).

(** The first [$group]. *)
Definition group_per_debate (l : list VoteRecord) : list DebateRow :=
  (λ g : (string * string) * list VoteRecord,
     mkRow g.1.1 g.1.2 (sum_of votes g.2))
  <$> group_by vote_key l.

(** The second [$group], by [_id.userName]. *)
Definition group_per_user (rows : list DebateRow) : list LeaderboardEntry :=
  (λ g : string * list DebateRow,
     mkEntry g.1 (sum_of totalVotesPerDebate g.2) (sum_of (λ _, 1) g.2))
  <$> group_by row_userName rows.

(** [{ $sort: { totalVotes: -1 } }]: [a] may come before [b].  The order of
    entries with equal [totalVotes] is left to the engine; no statement below
    depends on it. *)
Definition votes_desc (a b : LeaderboardEntry) : Prop :=
  totalVotes b ≤ totalVotes a.

#[export] Instance votes_desc_dec a b : Decision (votes_desc a b).
Proof. unfold votes_desc. apply _. Defined.

Definition sort_stage (l : list LeaderboardEntry) : list LeaderboardEntry :=
  merge_sort votes_desc l.

Definition aggregate (start : option Z) (l : list VoteRecord) : list LeaderboardEntry :=
  sort_stage (group_per_user (group_per_debate (match_stage start l))).

(** The handler: [h] is the host's time zone, [now] the clock reading of
    [new Date()], [q] is [req.query.filter].  The result is the status and
    the array sent. *)
Definition leaderboard (h : Host) (now : Z) (q : qval) (st : Store)
    : Z * list LeaderboardEntry :=
  let filter := filter_or_all q in
  (200, aggregate (startDate h now filter) (argumentsCollection st)).

(** What the specification says an entry holds: the votes of all records of
    the user, and the distinct debates among those records. *)
Definition votes_of_user (u : string) (recs : list VoteRecord) : Z :=
  sum_of votes (filter (λ r, userName r = u) recs).

Definition debates_of_user (u : string) (recs : list VoteRecord) : gset string :=
  list_to_set (debateId <$> filter (λ r, userName r = u) recs).

(** The row of a key, and the entry of a user, in terms of the records. *)
Definition row_of (recs : list VoteRecord) (k : string * string) : DebateRow :=
  mkRow k.1 k.2 (sum_of votes (filter (λ r, vote_key r = k) recs)).

Definition entry_of (recs : list VoteRecord) (u : string) : LeaderboardEntry :=
  mkEntry u (votes_of_user u recs) (Z.of_nat (size (debates_of_user u recs))).

(** ** The other routes *)

(** What a handler sends: [res.status(s).json(payload)], or
    [res.status(s).json({ error })]. *)
Inductive Reply (A : Type) : Type :=
  | Sent (status : Z) (payload : A)
  | Failed (status : Z) (error : string).

Arguments Sent {A} status payload.
Arguments Failed {A} status error.

Definition reply_status {A : Type} (r : Reply A) : Z :=
  match r with
  | Sent s _ => s
  | Failed s _ => s
  end.

(** [ObjectId.prototype.toHexString], which [res.json] applies to an
    [ObjectId]: the 12 bytes as 24 lower-case hexadecimal digits. *)
Definition hex_char (d : N) : ascii :=
  ascii_of_N (if (d <? 10)%N then 48 + d else 87 + d).

Fixpoint hex_digits (k : nat) (n : N) (acc : string) : string :=
  match k with
  | O => acc
  | S k' => hex_digits k' (n / 16)%N (String (hex_char (n mod 16)%N) acc)
  end.

Definition toHexString (oid : ObjectId) : string := hex_digits 24 oid "".

(** The body of [POST /debates].  [tags] is an array of strings when
    present; an array, also the empty one, is truthy. *)
Record DebateBody : Type := mkBody {
  b_title : jsval;
  b_description : jsval;
  b_tags : option (list string);
  b_category : jsval;
  b_duration : jsval;
}.

Definition tags_truthy (t : option (list string)) : bool :=
  match t with
  | Some _ => true
  | None => false
  end.

(** [newDebate]. *)
Definition newDebate (b : DebateBody) (now : Z) : Debate :=
  mkDebate (b_title b) (b_description b) (default [] (b_tags b))
           (b_category b) (b_duration b) now
           (<["support" := []]> (<["oppose" := []]> ∅)).

(** [POST /debates].  [insertedId] is the [_id] the driver generates for the
    document; [insertOne] fails on an [_id] the collection already holds,
    which the handler answers with 500.  The payload of the 201 is the
    message and the id. *)
Definition post_debates (st : Store) (insertedId : ObjectId) (b : DebateBody)
    (now : Z) : Reply (string * string) * Store :=
  if negb (truthy (b_title b)) || negb (truthy (b_description b))
     || negb (tags_truthy (b_tags b)) || negb (truthy (b_category b))
     || negb (truthy (b_duration b))
  then (Failed 400 "All fields are required", st)
  else
    match debateCollection st !! insertedId with
    | Some _ => (Failed 500 "Internal server error", st)
    | None =>
        (Sent 201 ("Debate created", toHexString insertedId),
         mkStore (<[insertedId := newDebate b now]> (debateCollection st))
                 (joinedDebateCollection st) (argumentsCollection st))
    end.

(** A body that passes the guard of [POST /debates]. *)
Definition complete_body (b : DebateBody) : Prop :=
  truthy (b_title b) = true ∧ truthy (b_description b) = true ∧
  tags_truthy (b_tags b) = true ∧ truthy (b_category b) = true ∧
  truthy (b_duration b) = true.

(** [GET /debates/:id]. *)
Definition get_debate (st : Store) (id : string) : Reply Debate :=
  match new_ObjectId id with
  | None => Failed 500 "Internal server error"
  | Some oid =>
      match debateCollection st !! oid with
      | None => Failed 404 "Debate not found"
      | Some debate => Sent 200 debate
      end
  end.

(** A query parameter that is a string or absent, and [!q] on it.  (A
    parameter that the query-string parser turns into an array or an object
    reaches MongoDB as a query document and is outside this model.) *)
Definition query_given (q : option string) : bool :=
  match q with
  | Some s => negb (String.eqb s "")
  | None => false
  end.

(** [GET /joinedDebates]. *)
Definition get_joinedDebates (st : Store) (name debateId : option string)
    : Reply JoinedDebate :=
  if negb (query_given name) || negb (query_given debateId)
  then Failed 400 "Missing name or debateId query parameters"
  else
    match findOne_joined (default "" debateId) (JStr (default "" name)) st with
    | None => Failed 404 "No joined debate found for this user and debate"
    | Some joinedData => Sent 200 joinedData
    end.


(** The number of days of the month before month [m] (0 to 11), [leap]
    being 1 in a leap year and 0 otherwise; before January comes December
    of the year before. *)
Definition days_of_previous_month (leap m : Z) : Z :=
  if m =? 0 then 31 else month_start leap m - month_start leap (m - 1).

(** ** Example data *)

Module Sample.

Definition id0 : string := "64b7f0c2a1d3e4f5a6b7c8d9".
Definition oid0 : ObjectId := Eval vm_compute in default 0%N (new_ObjectId id0).

Definition debate0 : Debate :=
  mkDebate (JStr "Tabs or spaces") (JStr "Which one") ["style"] (JStr "tech")
           (JNum 3600) 1700000000000
           (<["support" := []]> (<["oppose" := []]> ∅)).

(** A debate whose arrays already hold ["bob"] on both sides. *)
Definition debate_both : Debate :=
  with_arrays debate0
    (<["support" := [JStr "bob"; JStr "carol"]]> (<["oppose" := [JStr "bob"]]> ∅)).

Definition store0 : Store := mkStore (<[oid0 := debate0]> ∅) [] [].
Definition store_both : Store := mkStore (<[oid0 := debate_both]> ∅) [] [].

(** The vote records of the specification's leaderboard example. *)
Definition votes_example : list VoteRecord :=
  [mkVote "alice" "debateA" 3 0; mkVote "alice" "debateA" 2 0;
   mkVote "alice" "debateB" 1 0].

Definition store_votes : Store := mkStore ∅ [] votes_example.

(** 2024-01-15T15:00:00Z, and two records: one of 2024-01-08T05:00:00Z, one
    of 2024-01-07T23:59:59.999Z. *)
Definition now_ex : Z := 1705330800000.
Definition vote_old : VoteRecord := mkVote "alice" "debateA" 1 1704690000000.
Definition vote_older : VoteRecord := mkVote "bob" "debateA" 4 1704671999999.
Definition store_dated : Store := mkStore ∅ [] [vote_old; vote_older].

(** [id0] in upper case: another spelling of the same [ObjectId]. *)
Definition id0_upper : string := "64B7F0C2A1D3E4F5A6B7C8D9".

Definition body0 : DebateBody :=
  mkBody (JStr "Tabs or spaces") (JStr "Which one") (Some ["style"])
         (JStr "tech") (JNum 3600).

(** A debate whose [support] array holds ["bob"] twice. *)
Definition debate_twice : Debate :=
  with_arrays debate0
    (<["support" := [JStr "bob"; JStr "carol"; JStr "bob"]]>
       (<["oppose" := [JStr "dave"]]> ∅)).

Definition store_twice : Store := mkStore (<[oid0 := debate_twice]> ∅) [] [].

(** A body with an empty array of tags, and one with an empty title. *)
Definition body_no_tags : DebateBody :=
  mkBody (JStr "Tabs or spaces") (JStr "Which one") (Some [])
         (JStr "tech") (JNum 3600).

Definition body_no_title : DebateBody :=
  mkBody (JStr "") (JStr "Which one") (Some ["style"]) (JStr "tech") (JNum 3600).

End Sample.

(** ** Lemmas on the update operators *)

Section Operators.

Implicit Types (name v : jsval) (l : list jsval) (d : Debate).

Lemma pull_not_elem v l : v ∉ pull v l.
Proof. unfold pull. rewrite list_elem_of_filter. tauto. Qed.


Lemma addToSet_elem v l : v ∈ addToSet v l.
Proof.
  unfold addToSet. case_decide; [done|].
  apply elem_of_app. right. apply list_elem_of_singleton. done.
Qed.

Lemma addToSet_elem_iff v w l : w ∈ addToSet v l ↔ w = v ∨ w ∈ l.
Proof.
  unfold addToSet. case_decide.
  - split; [tauto|]. intros [->|]; done.
  - rewrite elem_of_app, list_elem_of_singleton. tauto.
Qed.

Lemma support_pull_both name d : name ∉ support (pull_both name d).
Proof.
  unfold support, array_field, pull_both, with_arrays. simpl.
  rewrite !lookup_alter. simpl.
  destruct (arrays d !! "support") as [l|]; simpl;
    [apply pull_not_elem | apply not_elem_of_nil].
Qed.

Lemma oppose_pull_both name d : name ∉ oppose (pull_both name d).
Proof.
  unfold oppose, array_field, pull_both, with_arrays. simpl.
  rewrite !lookup_alter. simpl.
  destruct (arrays d !! "oppose") as [l|]; simpl;
    [apply pull_not_elem | apply not_elem_of_nil].
Qed.

Lemma array_field_addToSet_eq f name d :
  name ∈ array_field f (addToSet_field f name d).
Proof.
  unfold array_field at 1, addToSet_field, with_arrays. simpl.
  rewrite lookup_insert_eq. simpl. apply addToSet_elem.
Qed.

Lemma array_field_addToSet_ne f g name d :
  f ≠ g → array_field g (addToSet_field f name d) = array_field g d.
Proof.
  intros Hne. unfold array_field, addToSet_field, with_arrays. simpl.
  by rewrite lookup_insert_ne.
Qed.

End Operators.

(** ** The join workflow *)

Section Join.

Implicit Types (st : Store) (id : string) (name side : jsval) (now : Z).


Lemma guard_accepted name side :
  negb (truthy name) || negb (includes [JStr "Support"; JStr "Oppose"] side) = false
  ↔ accepted name side.
Proof.
  unfold accepted, includes.
  rewrite orb_false_iff, !negb_false_iff, bool_decide_eq_true.
  rewrite !elem_of_cons, elem_of_nil. tauto.
Qed.

Lemma guard_rejected name side :
  ¬ accepted name side →
  negb (truthy name) || negb (includes [JStr "Support"; JStr "Oppose"] side) = true.
Proof.
  intros Hn. apply not_false_iff_true. by rewrite guard_accepted.
Qed.

(** The two writes to the debate document amount to one replacement. *)
Lemma alter_twice_lookup (m : gmap ObjectId Debate) oid d (f g : Debate → Debate) :
  m !! oid = Some d → alter g oid (alter f oid m) = <[oid := g (f d)]> m.
Proof.
  intros Hd. apply map_eq. intros k.
  destruct (decide (oid = k)) as [<-|Hne].
  - by rewrite lookup_insert_eq, !lookup_alter_eq, Hd.
  - by rewrite lookup_insert_ne, !lookup_alter_ne.
Qed.


Lemma join_success st id oid d name s now :
  accepted name (JStr s) →
  new_ObjectId id = Some oid →
  debateCollection st !! oid = Some d →
  join st id name (JStr s) now =
    (mkResponse 200 ("Successfully joined the debate as " +:+ s),
     joined_store st id oid d name s now).
Proof.
  intros Hacc Hid Hd. unfold join.
  apply guard_accepted in Hacc. rewrite Hacc, Hid, Hd.
  f_equal. unfold joined_store, updateOne_joined, updateOne_debate. simpl.
  f_equal. by apply alter_twice_lookup.
Qed.


Lemma join_cases st id name side now :
  join_outcome st id name side now (join st id name side now).
Proof.
  destruct (decide (accepted name side)) as [Hacc|Hrej].
  - destruct (new_ObjectId id) as [oid|] eqn:Hid.
    + destruct (debateCollection st !! oid) as [d|] eqn:Hd.
      * assert (∃ s, side = JStr s) as [s ->].
        { destruct Hacc as [_ [->| ->]]; eauto. }
        rewrite (join_success st id oid d name s now) by done.
        by eapply join_200.
      * unfold join. apply guard_accepted in Hacc as Hg. rewrite Hg, Hid, Hd.
        by eapply join_404.
    + unfold join. apply guard_accepted in Hacc as Hg. rewrite Hg, Hid.
      by apply join_500.
  - unfold join. rewrite (guard_rejected _ _ Hrej). by apply join_400.
Qed.

Lemma toLowerCase_side s :
  s = "Support" ∨ s = "Oppose" →
  (s = "Support" ∧ toLowerCase s = "support") ∨
  (s = "Oppose" ∧ toLowerCase s = "oppose").
Proof. intros [-> | ->]; [left | right]; done. Qed.

Lemma accepted_side name s :
  accepted name (JStr s) → s = "Support" ∨ s = "Oppose".
Proof. intros [_ [H|H]]; inversion H; auto. Qed.

(** The debate document after the two writes. *)
Lemma joined_debate_support name d :
  let d' := addToSet_field "support" name (pull_both name d) in
  name ∈ support d' ∧ name ∉ oppose d'.
Proof.
  simpl. split.
  - apply array_field_addToSet_eq.
  - unfold oppose. rewrite array_field_addToSet_ne by done.
    apply oppose_pull_both.
Qed.

Lemma joined_debate_oppose name d :
  let d' := addToSet_field "oppose" name (pull_both name d) in
  name ∈ oppose d' ∧ name ∉ support d'.
Proof.
  simpl. split.
  - apply array_field_addToSet_eq.
  - unfold support. rewrite array_field_addToSet_ne by done.
    apply support_pull_both.
Qed.

(** The upsert. *)
Lemma upsert_joined_head id name doc (l : list JoinedDebate) :
  joined_key id name doc →
  head (filter (joined_key id name) (upsert_joined id name doc l)) = Some doc.
Proof.
  intros Hk. induction l as [|r l IH]; simpl.
  - by rewrite filter_cons_True.
  - case_decide as Hr.
    + by rewrite filter_cons_True.
    + by rewrite filter_cons_False.
Qed.

Lemma upsert_joined_single id name doc (l : list JoinedDebate) :
  joined_key id name doc →
  (length (filter (joined_key id name) l) ≤ 1)%nat →
  filter (joined_key id name) (upsert_joined id name doc l) = [doc].
Proof.
  intros Hk. induction l as [|r l IH]; simpl; intros Hlen.
  - by rewrite filter_cons_True.
  - case_decide as Hr.
    + rewrite filter_cons_True in Hlen by done. simpl in Hlen.
      rewrite filter_cons_True by done. f_equal.
      apply length_zero_iff_nil. lia.
    + rewrite filter_cons_False in Hlen by done.
      rewrite filter_cons_False by done. auto.
Qed.

(** Keys other than the upserted one keep their documents. *)
Lemma upsert_joined_other id name doc id' name' (l : list JoinedDebate) :
  joined_key id name doc → (id', name') ≠ (id, name) →
  filter (joined_key id' name') (upsert_joined id name doc l) =
  filter (joined_key id' name') l.
Proof.
  intros Hk Hne.
  assert (∀ r, joined_key id name r → ¬ joined_key id' name' r) as Hdis.
  { intros r [<- <-] [<- <-]. done. }
  induction l as [|r l IH]; simpl.
  - rewrite filter_cons_False by auto. done.
  - case_decide as Hr.
    + rewrite !filter_cons_False by auto. done.
    + rewrite !filter_cons. by rewrite IH.
Qed.


Lemma joined_unique_nil : joined_unique [].
Proof. intros id name. simpl. lia. Qed.


End Join.

(** ** Properties of the join workflow *)

Import Sample.

(** C1. For a stored debate and a name the handler accepts, [join] with side
    Support followed immediately by [join] with side Oppose succeeds both
    times and leaves the name in the debate's [oppose] array and out of its
    [support] array. *)
Theorem join_support_then_oppose st id oid d name t1 t2 :
  truthy name = true →
  new_ObjectId id = Some oid →
  debateCollection st !! oid = Some d →
  ∃ r1 st1 r2 st2 d2,
    join st id name (JStr "Support") t1 = (r1, st1) ∧
    join st1 id name (JStr "Oppose") t2 = (r2, st2) ∧
    status r1 = 200 ∧ status r2 = 200 ∧
    debateCollection st2 !! oid = Some d2 ∧
    name ∈ oppose d2 ∧ name ∉ support d2.
Proof.
  intros Hname Hid Hd.
  set (d1 := addToSet_field "support" name (pull_both name d)).
  set (st1 := joined_store st id oid d name "Support" t1).
  assert (debateCollection st1 !! oid = Some d1) as Hd1.
  { unfold st1, joined_store. simpl. apply lookup_insert_eq. }
  eexists _, st1, _, (joined_store st1 id oid d1 name "Oppose" t2), _.
  split; [apply join_success; [split; auto | done | done] |].
  split; [apply join_success; [split; auto | done | done] |].
  split; [done |]. split; [done |].
  split; [unfold joined_store; simpl; apply lookup_insert_eq |].
  apply (joined_debate_oppose name d1).
Qed.

Lemma join_support_then_oppose_witness :
  truthy (JStr "alice") = true ∧
  new_ObjectId id0 = Some oid0 ∧
  debateCollection store0 !! oid0 = Some debate0 ∧
  ∃ r1 st1 r2 st2 d2,
    join store0 id0 (JStr "alice") (JStr "Support") 1 = (r1, st1) ∧
    join st1 id0 (JStr "alice") (JStr "Oppose") 2 = (r2, st2) ∧
    status r1 = 200 ∧ status r2 = 200 ∧
    debateCollection st2 !! oid0 = Some d2 ∧
    (JStr "alice") ∈ oppose d2 ∧ (JStr "alice") ∉ support d2.
Proof.
  split; [reflexivity |]. split; [reflexivity |]. split; [reflexivity |].
  apply (join_support_then_oppose store0 id0 oid0 debate0 (JStr "alice") 1 2);
    reflexivity.
Defined.

(** C2. Whatever the state of the debate before, also one that holds the
    name in both arrays, a successful [join] leaves the name in at most one
    of the debate's [support] and [oppose] arrays: the first write takes the
    name out of both, the second adds it to one. *)
Theorem join_at_most_one_side st id name side now r st' :
  join st id name side now = (r, st') →
  status r = 200 →
  ∃ oid d d',
    new_ObjectId id = Some oid ∧
    debateCollection st !! oid = Some d ∧
    debateCollection st' !! oid = Some d' ∧
    (name ∉ support (pull_both name d)) ∧
    (name ∉ oppose (pull_both name d)) ∧
    ¬ (name ∈ support d' ∧ name ∈ oppose d').
Proof.
  intros Hjoin Hok.
  destruct (join_cases st id name side now) as [| | |oid d s Hacc -> Hid Hd];
    inversion Hjoin; subst; try discriminate.
  exists oid, d, (addToSet_field (toLowerCase s) name (pull_both name d)).
  split; [done |]. split; [done |].
  split; [unfold joined_store; simpl; apply lookup_insert_eq |].
  split; [apply support_pull_both |]. split; [apply oppose_pull_both |].
  destruct (toLowerCase_side s (accepted_side _ _ Hacc)) as [[_ ->] | [_ ->]].
  - intros [_ Hopp]. by apply (joined_debate_support name d).
  - intros [Hsup _]. by apply (joined_debate_oppose name d).
Qed.

Lemma join_at_most_one_side_witness :
  ((JStr "bob") ∈ support debate_both ∧ (JStr "bob") ∈ oppose debate_both) ∧
  join store_both id0 (JStr "bob") (JStr "Oppose") 7 =
    ((join store_both id0 (JStr "bob") (JStr "Oppose") 7).1,
     (join store_both id0 (JStr "bob") (JStr "Oppose") 7).2) ∧
  status (join store_both id0 (JStr "bob") (JStr "Oppose") 7).1 = 200 ∧
  ∃ oid d d',
    new_ObjectId id0 = Some oid ∧
    debateCollection store_both !! oid = Some d ∧
    debateCollection (join store_both id0 (JStr "bob") (JStr "Oppose") 7).2 !! oid
      = Some d' ∧
    ((JStr "bob") ∉ support (pull_both (JStr "bob") d)) ∧
    ((JStr "bob") ∉ oppose (pull_both (JStr "bob") d)) ∧
    ¬ ((JStr "bob") ∈ support d' ∧ (JStr "bob") ∈ oppose d').
Proof.
  split; [split; [apply list_elem_of_here | apply list_elem_of_here] |].
  split; [reflexivity |]. split; [reflexivity |].
  apply (join_at_most_one_side store_both id0 (JStr "bob") (JStr "Oppose") 7
           (join store_both id0 (JStr "bob") (JStr "Oppose") 7).1
           (join store_both id0 (JStr "bob") (JStr "Oppose") 7).2);
    reflexivity.
Defined.

(** C3. Repeating [join] with the same identifier, name and side, on a
    collection that holds at most one [joinedDebate] document for that
    identifier and name, every call succeeds, and afterwards the collection
    holds exactly one document for the pair; its [joinedAt] is the clock
    reading of the last call. *)
Theorem join_repeat_one_record st id oid d name side clock now :
  truthy name = true →
  side = JStr "Support" ∨ side = JStr "Oppose" →
  new_ObjectId id = Some oid →
  debateCollection st !! oid = Some d →
  (length (filter (joined_key id name) (joinedDebateCollection st)) ≤ 1)%nat →
  ∃ rs st' doc,
    join_repeat st id name side (clock ++ [now]) = (rs, st') ∧
    length rs = S (length clock) ∧
    Forall (λ r, status r = 200) rs ∧
    filter (joined_key id name) (joinedDebateCollection st') = [doc] ∧
    j_joinedAt doc = now.
Proof.
  intros Hname Hside Hid.
  assert (∃ s, side = JStr s) as [s ->] by (destruct Hside; eauto).
  assert (accepted name (JStr s)) as Hacc by done.
  revert st d. induction clock as [|t clock IH]; intros st d Hd Hlen; simpl.
  - rewrite (join_success st id oid d name s now) by done.
    eexists _, _, _. split; [reflexivity |].
    split; [done |]. split; [by repeat constructor |].
    split; [simpl; by apply upsert_joined_single | reflexivity].
  - rewrite (join_success st id oid d name s t) by done.
    destruct (IH (joined_store st id oid d name s t)
                 (addToSet_field (toLowerCase s) name (pull_both name d)))
      as (rs & st' & doc & Hrep & Hn & Hall & Hone & Hat).
    + simpl. apply lookup_insert_eq.
    + simpl. rewrite upsert_joined_single by done. simpl. lia.
    + rewrite Hrep. eexists _, _, doc. split; [reflexivity |].
      split; [simpl; by rewrite Hn |]. split; [by constructor |]. done.
Qed.

Lemma join_repeat_one_record_witness :
  truthy (JStr "alice") = true ∧
  (JStr "Support" = JStr "Support" ∨ JStr "Support" = JStr "Oppose") ∧
  new_ObjectId id0 = Some oid0 ∧
  debateCollection store0 !! oid0 = Some debate0 ∧
  (length (filter (joined_key id0 (JStr "alice"))
             (joinedDebateCollection store0)) ≤ 1)%nat ∧
  ∃ rs st' doc,
    join_repeat store0 id0 (JStr "alice") (JStr "Support") ([10; 20] ++ [30])
      = (rs, st') ∧
    length rs = 3%nat ∧
    Forall (λ r, status r = 200) rs ∧
    filter (joined_key id0 (JStr "alice")) (joinedDebateCollection st') = [doc] ∧
    j_joinedAt doc = 30.
Proof.
  split; [reflexivity |]. split; [left; reflexivity |].
  split; [reflexivity |]. split; [reflexivity |]. split; [simpl; lia |].
  apply (join_repeat_one_record store0 id0 oid0 debate0 (JStr "alice")
           (JStr "Support") [10; 20] 30);
    [reflexivity | left; reflexivity | reflexivity | reflexivity | simpl; lia].
Defined.

(** C4. A [side] that is a string other than ["Support"] and ["Oppose"]
    (["support"] and ["oppose"] among them), or a [name] that is the empty
    string or missing, makes [join] answer 400 and leave the store as it
    was. *)
Theorem join_invalid_argument st id name side now :
  (∃ s, side = JStr s ∧ s ≠ "Support" ∧ s ≠ "Oppose") ∨
  name = JStr "" ∨ name = JUndefined →
  join st id name side now = (error_400, st) ∧
  status (join st id name side now).1 = 400.
Proof.
  intros Hbad.
  assert (join st id name side now = (error_400, st)) as ->; [|done].
  unfold join. rewrite guard_rejected; [done |].
  intros [Hname Hside].
  destruct Hbad as [(s & -> & Hs & Ho) | [-> | ->]]; try discriminate.
  destruct Hside as [H | H]; inversion H; done.
Qed.

Lemma join_invalid_argument_witness :
  ((∃ s, JStr "support" = JStr s ∧ s ≠ "Support" ∧ s ≠ "Oppose") ∨
   JStr "alice" = JStr "" ∨ JStr "alice" = JUndefined) ∧
  join store0 id0 (JStr "alice") (JStr "support") 1 = (error_400, store0) ∧
  status (join store0 id0 (JStr "alice") (JStr "support") 1).1 = 400.
Proof.
  assert ((∃ s, JStr "support" = JStr s ∧ s ≠ "Support" ∧ s ≠ "Oppose") ∨
          JStr "alice" = JStr "" ∨ JStr "alice" = JUndefined) as H.
  { left. exists "support". split; [reflexivity |]. split; discriminate. }
  split; [exact H |].
  exact (join_invalid_argument store0 id0 (JStr "alice") (JStr "support") 1 H).
Defined.

(** C5, as the claim states it, does not hold: an identifier that is not 24
    hexadecimal digits corresponds to no stored debate, yet [join] answers
    500, because [new ObjectId(id)] throws inside the [try] block. *)
Lemma join_malformed_id_not_404 :
  ¬ (∀ st id name side now,
       truthy name = true →
       side = JStr "Support" ∨ side = JStr "Oppose" →
       (∀ oid, new_ObjectId id = Some oid → debateCollection st !! oid = None) →
       status (join st id name side now).1 = 404).
Proof.
  intros H.
  specialize (H store0 "abc" (JStr "alice") (JStr "Support") 1).
  assert (status (join store0 "abc" (JStr "alice") (JStr "Support") 1).1 = 500)
    as H500 by reflexivity.
  rewrite H in H500; [discriminate | reflexivity | by left |].
  intros oid Hoid. discriminate Hoid.
Qed.

(** C5, amended. For an identifier that [ObjectId] accepts and that is the
    [_id] of no stored debate, [join] with an accepted name and side answers
    404. *)
Theorem join_not_found st id oid name side now :
  truthy name = true →
  side = JStr "Support" ∨ side = JStr "Oppose" →
  new_ObjectId id = Some oid →
  debateCollection st !! oid = None →
  join st id name side now = (error_404, st) ∧
  status (join st id name side now).1 = 404.
Proof.
  intros Hname Hside Hid Hd.
  assert (join st id name side now = (error_404, st)) as ->; [|done].
  unfold join.
  assert (accepted name side) as Hacc by done.
  apply guard_accepted in Hacc. by rewrite Hacc, Hid, Hd.
Qed.

Lemma join_not_found_witness :
  truthy (JStr "alice") = true ∧
  (JStr "Oppose" = JStr "Support" ∨ JStr "Oppose" = JStr "Oppose") ∧
  new_ObjectId "64b7f0c2a1d3e4f5a6b7c8d0" = Some 31170871365409138629861165264%N ∧
  debateCollection store0 !! 31170871365409138629861165264%N = None ∧
  join store0 "64b7f0c2a1d3e4f5a6b7c8d0" (JStr "alice") (JStr "Oppose") 1
    = (error_404, store0) ∧
  status (join store0 "64b7f0c2a1d3e4f5a6b7c8d0" (JStr "alice") (JStr "Oppose") 1).1
    = 404.
Proof.
  split; [reflexivity |]. split; [right; reflexivity |].
  split; [reflexivity |]. split; [reflexivity |].
  apply (join_not_found store0 "64b7f0c2a1d3e4f5a6b7c8d0"
           31170871365409138629861165264%N (JStr "alice") (JStr "Oppose") 1);
    [reflexivity | right; reflexivity | reflexivity | reflexivity].
Defined.

(** C9. When [join] answers 400 or 404 it has written nothing: the
    [debates] and the [joinedDebate] collections are what they were. *)
Theorem join_failure_writes_nothing st id name side now r st' :
  join st id name side now = (r, st') →
  status r = 400 ∨ status r = 404 →
  st' = st ∧
  debateCollection st' = debateCollection st ∧
  joinedDebateCollection st' = joinedDebateCollection st.
Proof.
  intros Hjoin Hfail.
  assert (st' = st) as ->; [|done].
  destruct (join_cases st id name side now);
    inversion Hjoin; subst; try done.
  simpl in Hfail. destruct Hfail; discriminate.
Qed.

Lemma join_failure_writes_nothing_witness :
  join store_both "64b7f0c2a1d3e4f5a6b7c8d0" (JStr "bob") (JStr "Support") 1
    = (error_404, store_both) ∧
  (status error_404 = 400 ∨ status error_404 = 404) ∧
  store_both = store_both ∧
  debateCollection store_both = debateCollection store_both ∧
  joinedDebateCollection store_both = joinedDebateCollection store_both.
Proof.
  split; [reflexivity |]. split; [right; reflexivity |].
  apply (join_failure_writes_nothing store_both "64b7f0c2a1d3e4f5a6b7c8d0"
           (JStr "bob") (JStr "Support") 1 error_404 store_both);
    [reflexivity | right; reflexivity].
Defined.

(** C10. After a successful [join], the [joinedDebate] document found for
    the identifier and name carries the title, description, category,
    duration and tags of the debate document as it was read before the two
    writes, and its [side] is the string of the request (["Support"] or
    ["Oppose"]), which differs from the lower-case field name the debate's
    array is stored under. *)
Theorem join_snapshot_fields st id name side now r st' :
  join st id name side now = (r, st') →
  status r = 200 →
  ∃ oid d doc s,
    new_ObjectId id = Some oid ∧
    debateCollection st !! oid = Some d ∧
    findOne_joined id name st' = Some doc ∧
    j_title doc = title d ∧
    j_description doc = description d ∧
    j_category doc = category d ∧
    j_duration doc = duration d ∧
    j_tags doc = tags d ∧
    side = JStr s ∧
    j_side doc = side ∧
    j_side doc ≠ JStr (toLowerCase s).
Proof.
  intros Hjoin Hok.
  destruct (join_cases st id name side now) as [| | |oid d s Hacc -> Hid Hd];
    inversion Hjoin; subst; try discriminate.
  eexists oid, d, _, s.
  split; [done |]. split; [done |].
  split; [unfold findOne_joined, joined_store; simpl;
          by apply upsert_joined_head |].
  simpl. repeat (split; [reflexivity |]).
  destruct (accepted_side _ _ Hacc) as [-> | ->]; discriminate.
Qed.

Lemma join_snapshot_fields_witness :
  join store0 id0 (JStr "alice") (JStr "Support") 9 =
    ((join store0 id0 (JStr "alice") (JStr "Support") 9).1,
     (join store0 id0 (JStr "alice") (JStr "Support") 9).2) ∧
  status (join store0 id0 (JStr "alice") (JStr "Support") 9).1 = 200 ∧
  ∃ oid d doc s,
    new_ObjectId id0 = Some oid ∧
    debateCollection store0 !! oid = Some d ∧
    findOne_joined id0 (JStr "alice")
      (join store0 id0 (JStr "alice") (JStr "Support") 9).2 = Some doc ∧
    j_title doc = title d ∧
    j_description doc = description d ∧
    j_category doc = category d ∧
    j_duration doc = duration d ∧
    j_tags doc = tags d ∧
    JStr "Support" = JStr s ∧
    j_side doc = JStr "Support" ∧
    j_side doc ≠ JStr (toLowerCase s).
Proof.
  split; [reflexivity |]. split; [reflexivity |].
  apply (join_snapshot_fields store0 id0 (JStr "alice") (JStr "Support") 9
           (join store0 id0 (JStr "alice") (JStr "Support") 9).1
           (join store0 id0 (JStr "alice") (JStr "Support") 9).2);
    reflexivity.
Defined.

(** ** The [$group] stage *)

Section GroupFacts.

Context {A K : Type} `{EqDecision K}.
Implicit Types (key : A → K) (l : list A) (ks : list K) (f : A → Z).


Lemma elem_of_keys_add k k' ks : k' ∈ keys_add k ks ↔ k' = k ∨ k' ∈ ks.
Proof.
  induction ks as [|k0 ks IH]; simpl.
  - rewrite list_elem_of_singleton, elem_of_nil. tauto.
  - case_decide as Hk.
    + subst. rewrite elem_of_cons. tauto.
    + rewrite !elem_of_cons, IH. tauto.
Qed.

Lemma NoDup_keys_add k ks : NoDup ks → NoDup (keys_add k ks).
Proof.
  induction 1 as [|k0 ks Hnotin Hnd IH]; simpl.
  - apply NoDup_singleton.
  - case_decide; [by constructor |].
    constructor; [|done]. rewrite elem_of_keys_add. intros [->|]; done.
Qed.

Lemma group_keys_snoc key l a :
  group_keys key (l ++ [a]) = keys_add (key a) (group_keys key l).
Proof. unfold group_keys. by rewrite foldl_snoc. Qed.

Lemma group_by_snoc key l a :
  group_by key (l ++ [a]) = group_add (key a) a (group_by key l).
Proof. unfold group_by. by rewrite foldl_snoc. Qed.

Lemma NoDup_group_keys key l : NoDup (group_keys key l).
Proof.
  induction l as [|a l IH] using rev_ind.
  - constructor.
  - rewrite group_keys_snoc. by apply NoDup_keys_add.
Qed.

Lemma elem_of_group_keys key l k :
  k ∈ group_keys key l ↔ ∃ a, a ∈ l ∧ key a = k.
Proof.
  induction l as [|a l IH] using rev_ind.
  - unfold group_keys. simpl. rewrite elem_of_nil.
    split; [done |]. intros (a & Ha & _). by apply elem_of_nil in Ha.
  - rewrite group_keys_snoc, elem_of_keys_add, IH. split.
    + intros [-> | (b & Hb & Hk)].
      * exists a. split; [|done].
        apply elem_of_app. right. by apply list_elem_of_singleton.
      * exists b. split; [|done]. apply elem_of_app. by left.
    + intros (b & Hb & Hk). apply elem_of_app in Hb as [Hb|Hb].
      * right. eauto.
      * apply list_elem_of_singleton in Hb as ->. by left.
Qed.

Lemma filter_none (P : A → Prop) `{!∀ x, Decision (P x)} l :
  (∀ a, a ∈ l → ¬ P a) → filter P l = [].
Proof.
  induction l as [|a l IH]; intros Hno; [done |].
  rewrite filter_cons_False by (apply Hno; left).
  apply IH. intros b Hb. apply Hno. by right.
Qed.

Lemma filter_ext_elem (P Q : A → Prop)
    `{!∀ x, Decision (P x), !∀ x, Decision (Q x)} l :
  (∀ a, a ∈ l → P a ↔ Q a) → filter P l = filter Q l.
Proof.
  induction l as [|a l IH]; intros Hext; [done |].
  rewrite !filter_cons.
  assert (filter P l = filter Q l) as ->.
  { apply IH. intros b Hb. apply Hext. by right. }
  apply decide_ext, Hext. left.
Qed.

Lemma group_add_groups key l a ks :
  NoDup ks →
  key a ∈ ks ∨ filter (λ x, key x = key a) l = [] →
  group_add (key a) a (group_of key l <$> ks) =
  group_of key (l ++ [a]) <$> keys_add (key a) ks.
Proof.
  induction 1 as [|k ks Hnotin Hnd IH]; intros Hcov; simpl.
  - destruct Hcov as [Hin|Hnil]; [by apply elem_of_nil in Hin |].
    unfold group_of. rewrite filter_app, Hnil.
    by rewrite filter_cons_True.
  - case_decide as Hk.
    + subst k. simpl. f_equal.
      * unfold group_of. rewrite filter_app. by rewrite filter_cons_True.
      * apply list_fmap_ext. intros i k Hlook. unfold group_of. f_equal.
        rewrite filter_app, filter_cons_False, filter_nil, app_nil_r; [done |].
        intros Heq. apply Hnotin. rewrite Heq.
        by eapply list_elem_of_lookup_2.
    + simpl. f_equal.
      * unfold group_of. rewrite filter_app, filter_cons_False by congruence.
        by rewrite app_nil_r.
      * apply IH. destruct Hcov as [Hin|Hnil]; [left | by right].
        apply elem_of_cons in Hin as [Heq|Hin]; [congruence | done].
Qed.

(** [$group] yields one group per key, holding the documents of that key. *)
Lemma group_by_groups key l :
  group_by key l = group_of key l <$> group_keys key l.
Proof.
  induction l as [|a l IH] using rev_ind; [done |].
  rewrite group_by_snoc, group_keys_snoc, IH.
  apply group_add_groups; [apply NoDup_group_keys |].
  destruct (decide (key a ∈ group_keys key l)) as [Hin|Hout]; [by left | right].
  apply filter_none. intros b Hb Heq. apply Hout.
  apply elem_of_group_keys. eauto.
Qed.

Lemma sum_of_fmap {B} (g : B → A) f (l : list B) :
  sum_of f (g <$> l) = sum_of (λ b, f (g b)) l.
Proof.
  induction l as [|b l IH]; [done |].
  rewrite fmap_cons. unfold sum_of in *. simpl. by rewrite IH.
Qed.

Lemma sum_of_one l : sum_of (λ _, 1) l = Z.of_nat (length l).
Proof. induction l as [|a l IH]; simpl; [done | rewrite IH; lia]. Qed.

Lemma sum_of_filter_disjoint f (P Q : A → Prop)
    `{!∀ x, Decision (P x), !∀ x, Decision (Q x)} l :
  (∀ a, P a → Q a → False) →
  sum_of f (filter P l) + sum_of f (filter Q l) =
  sum_of f (filter (λ a, P a ∨ Q a) l).
Proof.
  intros Hdis. induction l as [|a l IH]; [done |].
  rewrite !filter_cons.
  destruct (decide (P a)) as [HP|HP]; destruct (decide (Q a)) as [HQ|HQ].
  - destruct (Hdis a HP HQ).
  - rewrite decide_True by auto. simpl. lia.
  - rewrite decide_True by auto. simpl. lia.
  - rewrite decide_False by tauto. done.
Qed.

(** Summing the subtotals of distinct keys sums over the documents of those
    keys. *)
Lemma sum_of_groups key f ks l :
  NoDup ks →
  sum_of (λ k, sum_of f (filter (λ a, key a = k) l)) ks =
  sum_of f (filter (λ a, key a ∈ ks) l).
Proof.
  induction 1 as [|k ks Hnotin Hnd IH]; simpl.
  - rewrite filter_none; [done |]. intros a _. apply not_elem_of_nil.
  - rewrite IH, sum_of_filter_disjoint.
    + f_equal. apply list_filter_iff. intros a. rewrite elem_of_cons. done.
    + intros a <- Hin. done.
Qed.

End GroupFacts.

Lemma filter_fmap {A B} (g : A → B) (P : B → Prop) `{!∀ x, Decision (P x)}
    (l : list A) :
  filter P (g <$> l) = g <$> filter (λ a, P (g a)) l.
Proof.
  induction l as [|a l IH]; [done |].
  rewrite fmap_cons, !filter_cons, IH. by case_decide.
Qed.

(** ** The leaderboard *)


Section Leaderboard.

Implicit Types (recs : list VoteRecord) (u : string) (e : LeaderboardEntry).

Lemma group_per_debate_rows recs :
  group_per_debate recs = row_of recs <$> group_keys vote_key recs.
Proof.
  unfold group_per_debate.
  rewrite group_by_groups, <- list_fmap_compose. done.
Qed.

(** The rows of user [u] are the rows of the keys whose user is [u]. *)
Lemma rows_of_user recs u (ks : list (string * string)) :
  filter (λ row, row_userName row = u) (row_of recs <$> ks) =
  row_of recs <$> filter (λ k, k.1 = u) ks.
Proof. by rewrite filter_fmap. Qed.

Lemma user_keys_elem recs u (k : string * string) :
  k ∈ filter (λ k, k.1 = u) (group_keys vote_key recs) ↔
  ∃ r, r ∈ recs ∧ userName r = u ∧ vote_key r = k.
Proof.
  rewrite list_elem_of_filter, elem_of_group_keys. split.
  - intros [Hu (r & Hr & Hk)]. exists r. subst k. done.
  - intros (r & Hr & Hu & Hk). subst k. split; [done |]. eauto.
Qed.

Lemma user_rows_votes recs u :
  sum_of totalVotesPerDebate
    (row_of recs <$> filter (λ k, k.1 = u) (group_keys vote_key recs)) =
  votes_of_user u recs.
Proof.
  rewrite sum_of_fmap. unfold row_of. simpl.
  rewrite (sum_of_groups vote_key votes)
    by apply NoDup_filter, NoDup_group_keys.
  unfold votes_of_user. f_equal. apply filter_ext_elem. intros r Hr.
  rewrite user_keys_elem. split.
  - intros (r' & _ & Hu & Hk). inversion Hk. congruence.
  - intros Hu. exists r. done.
Qed.

Lemma user_rows_count recs u :
  sum_of (λ _, 1)
    (row_of recs <$> filter (λ k, k.1 = u) (group_keys vote_key recs)) =
  Z.of_nat (size (debates_of_user u recs)).
Proof.
  rewrite sum_of_fmap, sum_of_one. f_equal.
  set (ks := filter (λ k, k.1 = u) (group_keys vote_key recs)).
  assert (debates_of_user u recs = list_to_set (snd <$> ks)) as ->.
  { apply set_eq. intros x. unfold debates_of_user.
    rewrite !elem_of_list_to_set, !list_elem_of_fmap. split.
    - intros (r & -> & Hr). apply list_elem_of_filter in Hr as [Hu Hr].
      exists (vote_key r). split; [done |].
      apply user_keys_elem. eauto.
    - intros (k & -> & Hk). apply user_keys_elem in Hk as (r & Hr & Hu & <-).
      exists r. split; [done |]. by apply list_elem_of_filter. }
  rewrite size_list_to_set, length_fmap; [done |].
  apply NoDup_fmap_2_strong; [|apply NoDup_filter, NoDup_group_keys].
  intros [u1 d1] [u2 d2] H1 H2 Hd. simpl in Hd. subst d2.
  apply list_elem_of_filter in H1 as [H1 _].
  apply list_elem_of_filter in H2 as [H2 _].
  simpl in *. congruence.
Qed.

(** The two [$group] stages yield one entry per user. *)
Lemma group_per_user_entries recs :
  group_per_user (group_per_debate recs) =
  entry_of recs <$> group_keys row_userName (group_per_debate recs).
Proof.
  unfold group_per_user.
  rewrite group_by_groups, <- list_fmap_compose.
  apply list_fmap_ext. intros _ u _. simpl.
  rewrite group_per_debate_rows, rows_of_user.
  unfold entry_of. by rewrite user_rows_votes, user_rows_count.
Qed.

Lemma user_keys recs u :
  u ∈ group_keys row_userName (group_per_debate recs) ↔ u ∈ userName <$> recs.
Proof.
  rewrite elem_of_group_keys, group_per_debate_rows, list_elem_of_fmap. split.
  - intros (row & Hrow & <-).
    apply list_elem_of_fmap in Hrow as (k & -> & Hk).
    apply elem_of_group_keys in Hk as (r & Hr & <-). eauto.
  - intros (r & -> & Hr). exists (row_of recs (vote_key r)). split; [|done].
    apply list_elem_of_fmap_2, elem_of_group_keys. eauto.
Qed.

Lemma sort_stage_sorted (l : list LeaderboardEntry) :
  Sorted votes_desc (sort_stage l).
Proof.
  apply Sorted_merge_sort. intros a b. unfold votes_desc. lia.
Qed.

Lemma sort_stage_elem e (l : list LeaderboardEntry) :
  e ∈ sort_stage l ↔ e ∈ l.
Proof. unfold sort_stage. by rewrite merge_sort_Permutation. Qed.

(** The entries of the pipeline, with no lower bound on [createdAt]. *)
Lemma aggregate_elem recs e :
  e ∈ aggregate None recs ↔ ∃ u, u ∈ userName <$> recs ∧ e = entry_of recs u.
Proof.
  unfold aggregate, match_stage.
  rewrite sort_stage_elem, group_per_user_entries, list_elem_of_fmap.
  split; intros (u & H1 & H2).
  - exists u. split; [by apply user_keys | done].
  - exists u. split; [done | by apply user_keys].
Qed.

Lemma aggregate_users_NoDup recs : NoDup (_id <$> aggregate None recs).
Proof.
  unfold aggregate, match_stage, sort_stage.
  rewrite merge_sort_Permutation, group_per_user_entries, <- list_fmap_compose.
  rewrite (list_fmap_ext _ id _) by done.
  rewrite list_fmap_id. apply NoDup_group_keys.
Qed.

Lemma filter_or_all_other (q : qval) :
  q ≠ QStr "weekly" → q ≠ QStr "monthly" →
  filter_or_all q ≠ QStr "weekly" ∧ filter_or_all q ≠ QStr "monthly".
Proof.
  intros Hw Hm. destruct q as [|s|]; simpl; [done | | done].
  destruct (String.eqb s ""); done.
Qed.

Lemma startDate_other h now (q : qval) :
  q ≠ QStr "weekly" → q ≠ QStr "monthly" →
  startDate h now (filter_or_all q) = None.
Proof.
  intros Hw Hm. destruct (filter_or_all_other q Hw Hm) as [Hw' Hm'].
  unfold startDate. by rewrite !decide_False.
Qed.

End Leaderboard.

(** ** Dates: the day seven days back *)

(** [YearFromTime] is the year the day falls in. *)
Lemma YearFromTime_spec t :
  DayFromYear (YearFromTime t) ≤ Day t < DayFromYear (YearFromTime t + 1).
Proof.
  unfold YearFromTime. generalize (Day t). intros d.
  repeat case_match;
    rewrite ?Z.ltb_lt, ?Z.ltb_ge, ?Z.leb_le, ?Z.leb_gt in *;
    unfold DayFromYear in *; Z.div_mod_to_equations; lia.
Qed.

Lemma MonthFromTime_range t : 0 ≤ MonthFromTime t ≤ 11.
Proof. unfold MonthFromTime. repeat case_match; lia. Qed.

(** Moving the date within [new Date(year, month, date)] moves the day
    number by as much. *)
Lemma MakeDay_shift t k :
  MakeDay (YearFromTime t) (MonthFromTime t) (DateFromTime t + k) = Day t + k.
Proof.
  pose proof (MonthFromTime_range t) as Hm.
  unfold MakeDay. rewrite Z.div_small, Z.mod_small, Z.add_0_r by lia.
  unfold DateFromTime, DayWithinYear, InLeapYear. lia.
Qed.

Lemma startDate_weekly h now :
  100 ≤ getFullYear h now →
  startDate h now (QStr "weekly") =
  Some (UTC h ((Day (LocalTime h now) - 7) * msPerDay)).
Proof.
  intros Hy. unfold startDate. rewrite decide_True by done.
  unfold new_Date, MakeFullYear, MakeDate.
  replace ((0 <=? getFullYear h now) && (getFullYear h now <=? 99)) with false
    by (symmetry; apply andb_false_iff; right; apply Z.leb_gt; lia).
  unfold getFullYear, getMonth, getDate.
  replace (DateFromTime (LocalTime h now) - 7)
    with (DateFromTime (LocalTime h now) + -7) by lia.
  rewrite MakeDay_shift. do 2 f_equal. lia.
Qed.

(** ** Properties of the leaderboard *)

(** C6. With [filter=all], each user with a vote record has an entry, and
    the entry of a user holds as [totalVotes] the sum of the votes of all the
    user's records and as [debatesParticipated] the number of distinct
    debates among them; on the records (alice, debateA, 3),
    (alice, debateA, 2), (alice, debateB, 1) the result is the one entry
    alice, 6, 2. *)
Theorem leaderboard_all_totals h now st u :
  u ∈ userName <$> argumentsCollection st →
  (∃ e, e ∈ (leaderboard h now (QStr "all") st).2 ∧ _id e = u) ∧
  (∀ e, e ∈ (leaderboard h now (QStr "all") st).2 → _id e = u →
     totalVotes e = votes_of_user u (argumentsCollection st) ∧
     debatesParticipated e =
       Z.of_nat (size (debates_of_user u (argumentsCollection st)))) ∧
  NoDup (_id <$> (leaderboard h now (QStr "all") st).2) ∧
  leaderboard h now (QStr "all") store_votes = (200, [mkEntry "alice" 6 2]).
Proof.
  intros Hu.
  assert (leaderboard h now (QStr "all") st
          = (200, aggregate None (argumentsCollection st))) as -> by done.
  simpl. split; [|split; [|split]].
  - exists (entry_of (argumentsCollection st) u). split; [|done].
    apply aggregate_elem. eauto.
  - intros e He Hid. apply aggregate_elem in He as (u' & _ & ->).
    simpl in Hid. subst u'. done.
  - apply aggregate_users_NoDup.
  - reflexivity.
Qed.

Lemma leaderboard_all_totals_witness :
  "alice" ∈ userName <$> argumentsCollection store_votes ∧
  (∃ e, e ∈ (leaderboard utc_host now_ex (QStr "all") store_votes).2 ∧
        _id e = "alice") ∧
  (∀ e, e ∈ (leaderboard utc_host now_ex (QStr "all") store_votes).2 →
     _id e = "alice" →
     totalVotes e = votes_of_user "alice" (argumentsCollection store_votes) ∧
     debatesParticipated e =
       Z.of_nat (size (debates_of_user "alice" (argumentsCollection store_votes)))) ∧
  NoDup (_id <$> (leaderboard utc_host now_ex (QStr "all") store_votes).2) ∧
  leaderboard utc_host now_ex (QStr "all") store_votes
    = (200, [mkEntry "alice" 6 2]).
Proof.
  assert ("alice" ∈ userName <$> argumentsCollection store_votes) as H
    by apply list_elem_of_here.
  split; [exact H |].
  exact (leaderboard_all_totals utc_host now_ex store_votes "alice" H).
Defined.

(** C7. With [filter=weekly] the leaderboard is computed from exactly the
    records whose [createdAt] is at or after now minus seven days in calendar
    days: the day of the month of the local date less 7, from the local
    midnight that opens that day.  That is not 168 hours before now: at
    2024-01-15T15:00:00Z on a UTC host a record of 2024-01-08T05:00:00Z,
    more than 168 hours old, is counted, and one of 2024-01-07T23:59:59.999Z
    is not.  With [filter=all] no record is left out.  (The clock reads a
    year from 100 on; [new Date] takes a year below 100 for 19xx.) *)
Theorem leaderboard_weekly_window h now st :
  100 ≤ getFullYear h now →
  (∀ r, r ∈ match_stage (startDate h now (filter_or_all (QStr "weekly")))
              (argumentsCollection st) ↔
        r ∈ argumentsCollection st ∧
        UTC h ((Day (LocalTime h now) - 7) * msPerDay) ≤ v_createdAt r) ∧
  leaderboard h now (QStr "weekly") st =
    (200, aggregate None
            (filter (λ r, UTC h ((Day (LocalTime h now) - 7) * msPerDay)
                          ≤ v_createdAt r)
                    (argumentsCollection st))) ∧
  match_stage (startDate h now (filter_or_all (QStr "all")))
    (argumentsCollection st) = argumentsCollection st ∧
  (v_createdAt vote_old < now_ex - 7 * msPerDay ∧
   leaderboard utc_host now_ex (QStr "weekly") store_dated
     = (200, [mkEntry "alice" 1 1])).
Proof.
  intros Hy. unfold leaderboard at 1. simpl filter_or_all.
  rewrite (startDate_weekly h now Hy).
  split; [|split; [|split]]; [|done..].
  intros r. simpl. rewrite list_elem_of_filter. tauto.
Qed.

Lemma leaderboard_weekly_window_witness :
  100 ≤ getFullYear utc_host now_ex ∧
  (∀ r, r ∈ match_stage (startDate utc_host now_ex (filter_or_all (QStr "weekly")))
              (argumentsCollection store_dated) ↔
        r ∈ argumentsCollection store_dated ∧
        UTC utc_host ((Day (LocalTime utc_host now_ex) - 7) * msPerDay)
          ≤ v_createdAt r) ∧
  leaderboard utc_host now_ex (QStr "weekly") store_dated =
    (200, aggregate None
            (filter (λ r, UTC utc_host ((Day (LocalTime utc_host now_ex) - 7) * msPerDay)
                          ≤ v_createdAt r)
                    (argumentsCollection store_dated))) ∧
  match_stage (startDate utc_host now_ex (filter_or_all (QStr "all")))
    (argumentsCollection store_dated) = argumentsCollection store_dated ∧
  (v_createdAt vote_old < now_ex - 7 * msPerDay ∧
   leaderboard utc_host now_ex (QStr "weekly") store_dated
     = (200, [mkEntry "alice" 1 1])).
Proof.
  assert (100 ≤ getFullYear utc_host now_ex) as H by (vm_compute; discriminate).
  split; [exact H |].
  exact (leaderboard_weekly_window utc_host now_ex store_dated H).
Defined.

(** C8. A [filter] that is neither [weekly] nor [monthly] does not make the
    request fail: the handler answers 200 with the result of [filter=all]. *)
Theorem leaderboard_unknown_filter h now (q : qval) st :
  q ≠ QStr "all" → q ≠ QStr "weekly" → q ≠ QStr "monthly" →
  leaderboard h now q st = leaderboard h now (QStr "all") st ∧
  (leaderboard h now q st).1 = 200.
Proof.
  intros _ Hw Hm. unfold leaderboard.
  rewrite (startDate_other h now q Hw Hm).
  rewrite (startDate_other h now (QStr "all")) by done. done.
Qed.

Lemma leaderboard_unknown_filter_witness :
  QStr "yearly" ≠ QStr "all" ∧
  QStr "yearly" ≠ QStr "weekly" ∧
  QStr "yearly" ≠ QStr "monthly" ∧
  leaderboard utc_host now_ex (QStr "yearly") store_dated
    = leaderboard utc_host now_ex (QStr "all") store_dated ∧
  (leaderboard utc_host now_ex (QStr "yearly") store_dated).1 = 200.
Proof.
  split; [discriminate |]. split; [discriminate |]. split; [discriminate |].
  apply (leaderboard_unknown_filter utc_host now_ex (QStr "yearly") store_dated);
    discriminate.
Defined.

(** ** Further lemmas on the two writes to a debate *)

Section Writes.

Implicit Types (name v : jsval) (l : list jsval) (d : Debate) (f g : string).

Lemma pull_id v l : v ∉ l → pull v l = l.
Proof.
  intros Hv. induction l as [|x l IH]; [done |].
  unfold pull in *. rewrite filter_cons_True.
  - f_equal. apply IH. intros H. apply Hv. by right.
  - intros ->. apply Hv. left.
Qed.

Lemma pull_idem v l : pull v (pull v l) = pull v l.
Proof. apply pull_id, pull_not_elem. Qed.

Lemma pull_snoc v l : pull v (l ++ [v]) = pull v l.
Proof.
  unfold pull. rewrite filter_app, filter_cons_False by (intros H; by apply H).
  by rewrite filter_nil, app_nil_r.
Qed.

Lemma addToSet_pull v l : addToSet v (pull v l) = pull v l ++ [v].
Proof. unfold addToSet. rewrite decide_False; [done | apply pull_not_elem]. Qed.

Lemma filter_eq_pull v l : filter (λ x, x = v) (pull v l) = [].
Proof.
  apply filter_none. intros a Ha Heq. subst a. by apply (pull_not_elem v l).
Qed.

Lemma arrays_pull_both name d f :
  arrays (pull_both name d) !! f =
  if decide (f = "support" ∨ f = "oppose") then pull name <$> arrays d !! f
  else arrays d !! f.
Proof.
  unfold pull_both, with_arrays. simpl.
  destruct (decide (f = "oppose")) as [->|Ho].
  - rewrite lookup_alter_eq, lookup_alter_ne by done.
    rewrite decide_True by auto. done.
  - rewrite lookup_alter_ne by done.
    destruct (decide (f = "support")) as [->|Hs].
    + rewrite lookup_alter_eq. rewrite decide_True by auto. done.
    + rewrite lookup_alter_ne by done. rewrite decide_False by tauto. done.
Qed.

Lemma arrays_addToSet_field f g name d :
  arrays (addToSet_field f name d) !! g =
  if decide (f = g) then Some (addToSet name (array_field f d))
  else arrays d !! g.
Proof. unfold addToSet_field, with_arrays. simpl. apply lookup_insert. Qed.

Lemma array_field_pull_both_side name d f :
  f = "support" ∨ f = "oppose" →
  array_field f (pull_both name d) = pull name (array_field f d).
Proof.
  intros Hf. unfold array_field. rewrite arrays_pull_both, decide_True by done.
  by destruct (arrays d !! f).
Qed.

(** The array the name is added to, and the other one, after both writes. *)
Lemma array_field_joined f name d :
  f = "support" ∨ f = "oppose" →
  array_field f (addToSet_field f name (pull_both name d)) =
  pull name (array_field f d) ++ [name].
Proof.
  intros Hf. unfold array_field at 1.
  rewrite arrays_addToSet_field, decide_True by done. simpl.
  by rewrite array_field_pull_both_side, addToSet_pull.
Qed.

Lemma array_field_joined_other f g name d :
  g = "support" ∨ g = "oppose" → f ≠ g →
  array_field g (addToSet_field f name (pull_both name d)) =
  pull name (array_field g d).
Proof.
  intros Hg Hne. rewrite array_field_addToSet_ne by done.
  by apply array_field_pull_both_side.
Qed.

Lemma Debate_eq d1 d2 :
  title d1 = title d2 → description d1 = description d2 → tags d1 = tags d2 →
  category d1 = category d2 → duration d1 = duration d2 →
  createdAt d1 = createdAt d2 → arrays d1 = arrays d2 → d1 = d2.
Proof. destruct d1, d2. simpl. congruence. Qed.

(** The two writes, done again, change nothing. *)
Lemma rejoin_debate f name d :
  f = "support" ∨ f = "oppose" →
  addToSet_field f name (pull_both name (addToSet_field f name (pull_both name d)))
  = addToSet_field f name (pull_both name d).
Proof.
  intros Hf. apply Debate_eq; try reflexivity.
  apply map_eq. intros k. rewrite !arrays_addToSet_field.
  destruct (decide (f = k)) as [<-|Hk].
  - f_equal. rewrite !array_field_pull_both_side by done.
    unfold array_field at 1. rewrite arrays_addToSet_field, decide_True by done.
    simpl. rewrite array_field_pull_both_side by done.
    by rewrite !addToSet_pull, pull_snoc, pull_idem.
  - rewrite (arrays_pull_both name (addToSet_field f name (pull_both name d))).
    rewrite arrays_addToSet_field, (decide_False (P := f = k)) by done.
    case_decide as Hside; [|done].
    rewrite arrays_pull_both, decide_True by done.
    destruct (arrays d !! k) as [l|]; simpl; [by rewrite pull_idem | done].
Qed.

Lemma upsert_joined_idem id name doc (l : list JoinedDebate) :
  joined_key id name doc →
  upsert_joined id name doc (upsert_joined id name doc l) =
  upsert_joined id name doc l.
Proof.
  intros Hk. induction l as [|r l IH]; simpl.
  - by rewrite decide_True.
  - destruct (decide (joined_key id name r)) as [Hr|Hr]; simpl.
    + by rewrite decide_True.
    + rewrite decide_False by done. by rewrite IH.
Qed.

Lemma toLowerCase_field name s :
  accepted name (JStr s) → toLowerCase s = "support" ∨ toLowerCase s = "oppose".
Proof.
  intros Hacc.
  destruct (toLowerCase_side s (accepted_side _ _ Hacc)) as [[_ ->]|[_ ->]]; auto.
Qed.

(** A successful call, read back from its result. *)
Lemma join_200_inv st id name side now r st' :
  join st id name side now = (r, st') → status r = 200 →
  ∃ oid d s,
    accepted name (JStr s) ∧ side = JStr s ∧ new_ObjectId id = Some oid ∧
    debateCollection st !! oid = Some d ∧
    r = mkResponse 200 ("Successfully joined the debate as " +:+ s) ∧
    st' = joined_store st id oid d name s now.
Proof.
  intros Hjoin Hok.
  destruct (join_cases st id name side now) as [| | |oid d s Hacc -> Hid Hd];
    inversion Hjoin; subst; try discriminate.
  exists oid, d, s. done.
Qed.

End Writes.

(** ** Further properties of the join workflow *)


(** X2. After a successful [join], [GET /debates/:id] sends the debate, and
    in it the name stands exactly once in the array of the chosen side, as
    its last element, however often it stood there before. *)
Theorem join_name_once st id name side now r st' :
  join st id name side now = (r, st') →
  status r = 200 →
  ∃ d' s,
    get_debate st' id = Sent 200 d' ∧
    side = JStr s ∧
    filter (λ x, x = name) (array_field (toLowerCase s) d') = [name] ∧
    last (array_field (toLowerCase s) d') = Some name.
Proof.
  intros Hjoin Hok.
  destruct (join_200_inv _ _ _ _ _ _ _ Hjoin Hok)
    as (oid & d & s & Hacc & -> & Hid & Hd & -> & ->).
  exists (addToSet_field (toLowerCase s) name (pull_both name d)), s.
  split.
  { unfold get_debate, joined_store. rewrite Hid. simpl.
    by rewrite lookup_insert_eq. }
  split; [done |].
  rewrite array_field_joined by (by eapply toLowerCase_field).
  split.
  - rewrite filter_app, filter_eq_pull. by rewrite filter_cons_True.
  - apply last_snoc.
Qed.

Lemma join_name_once_witness :
  join store_twice id0 (JStr "bob") (JStr "Support") 3 =
    ((join store_twice id0 (JStr "bob") (JStr "Support") 3).1,
     (join store_twice id0 (JStr "bob") (JStr "Support") 3).2) ∧
  status (join store_twice id0 (JStr "bob") (JStr "Support") 3).1 = 200 ∧
  ∃ d' s,
    get_debate (join store_twice id0 (JStr "bob") (JStr "Support") 3).2 id0
      = Sent 200 d' ∧
    JStr "Support" = JStr s ∧
    filter (λ x, x = JStr "bob") (array_field (toLowerCase s) d') = [JStr "bob"] ∧
    last (array_field (toLowerCase s) d') = Some (JStr "bob").
Proof.
  split; [reflexivity |]. split; [reflexivity |].
  apply (join_name_once store_twice id0 (JStr "bob") (JStr "Support") 3
           (join store_twice id0 (JStr "bob") (JStr "Support") 3).1
           (join store_twice id0 (JStr "bob") (JStr "Support") 3).2);
    reflexivity.
Defined.

(** X3. A successful [join] touches no other participant and no other field
    of the debate: with the joining name taken out, the [support] and
    [oppose] arrays are what they were with that name taken out (same
    names, same order, same repetitions), and the title, description, tags,
    category, duration and creation time are unchanged. *)
Theorem join_other_names_kept st id name side now r st' :
  join st id name side now = (r, st') →
  status r = 200 →
  ∃ oid d d',
    new_ObjectId id = Some oid ∧
    debateCollection st !! oid = Some d ∧
    debateCollection st' !! oid = Some d' ∧
    pull name (support d') = pull name (support d) ∧
    pull name (oppose d') = pull name (oppose d) ∧
    title d' = title d ∧ description d' = description d ∧ tags d' = tags d ∧
    category d' = category d ∧ duration d' = duration d ∧
    createdAt d' = createdAt d.
Proof.
  intros Hjoin Hok.
  destruct (join_200_inv _ _ _ _ _ _ _ Hjoin Hok)
    as (oid & d & s & Hacc & -> & Hid & Hd & -> & ->).
  exists oid, d, (addToSet_field (toLowerCase s) name (pull_both name d)).
  split; [done |]. split; [done |].
  split; [unfold joined_store; simpl; apply lookup_insert_eq |].
  unfold support, oppose.
  destruct (toLowerCase_side s (accepted_side _ _ Hacc)) as [[_ ->]|[_ ->]].
  - rewrite array_field_joined, array_field_joined_other by auto.
    by rewrite pull_snoc, !pull_idem.
  - rewrite array_field_joined, array_field_joined_other by auto.
    by rewrite pull_snoc, !pull_idem.
Qed.

Lemma join_other_names_kept_witness :
  join store_twice id0 (JStr "bob") (JStr "Oppose") 3 =
    ((join store_twice id0 (JStr "bob") (JStr "Oppose") 3).1,
     (join store_twice id0 (JStr "bob") (JStr "Oppose") 3).2) ∧
  status (join store_twice id0 (JStr "bob") (JStr "Oppose") 3).1 = 200 ∧
  ∃ oid d d',
    new_ObjectId id0 = Some oid ∧
    debateCollection store_twice !! oid = Some d ∧
    debateCollection (join store_twice id0 (JStr "bob") (JStr "Oppose") 3).2 !! oid
      = Some d' ∧
    pull (JStr "bob") (support d') = pull (JStr "bob") (support d) ∧
    pull (JStr "bob") (oppose d') = pull (JStr "bob") (oppose d) ∧
    title d' = title d ∧ description d' = description d ∧ tags d' = tags d ∧
    category d' = category d ∧ duration d' = duration d ∧
    createdAt d' = createdAt d.
Proof.
  split; [reflexivity |]. split; [reflexivity |].
  apply (join_other_names_kept store_twice id0 (JStr "bob") (JStr "Oppose") 3
           (join store_twice id0 (JStr "bob") (JStr "Oppose") 3).1
           (join store_twice id0 (JStr "bob") (JStr "Oppose") 3).2);
    reflexivity.
Defined.



(** X5. A successful [join] repeated with the same arguments answers the
    same and leaves the debates as the first call left them, whatever the
    clock reads; at the same clock reading the whole store is the same. *)
Theorem join_idempotent st id name side now r st' now2 :
  join st id name side now = (r, st') →
  status r = 200 →
  (join st' id name side now2).1 = r ∧
  debateCollection (join st' id name side now2).2 = debateCollection st' ∧
  join st' id name side now = (r, st').
Proof.
  intros Hjoin Hok.
  destruct (join_200_inv _ _ _ _ _ _ _ Hjoin Hok)
    as (oid & d & s & Hacc & -> & Hid & Hd & -> & ->).
  set (d1 := addToSet_field (toLowerCase s) name (pull_both name d)).
  set (st1 := joined_store st id oid d name s now).
  assert (debateCollection st1 !! oid = Some d1) as Hd1
    by (unfold st1, joined_store; simpl; apply lookup_insert_eq).
  assert (∀ t, debateCollection (joined_store st1 id oid d1 name s t)
               = debateCollection st1) as Hsame.
  { intros t. unfold st1, joined_store. simpl. unfold d1.
    rewrite rejoin_debate by (by eapply toLowerCase_field).
    apply insert_insert_eq. }
  rewrite (join_success st1 id oid d1 name s now2 Hacc Hid Hd1).
  rewrite (join_success st1 id oid d1 name s now Hacc Hid Hd1). simpl.
  split; [done |]. split; [exact (Hsame now2) |]. f_equal.
  specialize (Hsame now). unfold st1, joined_store in *. simpl in *.
  rewrite Hsame. f_equal.
  by apply upsert_joined_idem.
Qed.

Lemma join_idempotent_witness :
  join store_twice id0 (JStr "bob") (JStr "Oppose") 3 =
    ((join store_twice id0 (JStr "bob") (JStr "Oppose") 3).1,
     (join store_twice id0 (JStr "bob") (JStr "Oppose") 3).2) ∧
  status (join store_twice id0 (JStr "bob") (JStr "Oppose") 3).1 = 200 ∧
  (join (join store_twice id0 (JStr "bob") (JStr "Oppose") 3).2
        id0 (JStr "bob") (JStr "Oppose") 8).1
    = (join store_twice id0 (JStr "bob") (JStr "Oppose") 3).1 ∧
  debateCollection
    (join (join store_twice id0 (JStr "bob") (JStr "Oppose") 3).2
          id0 (JStr "bob") (JStr "Oppose") 8).2
    = debateCollection (join store_twice id0 (JStr "bob") (JStr "Oppose") 3).2 ∧
  join (join store_twice id0 (JStr "bob") (JStr "Oppose") 3).2
       id0 (JStr "bob") (JStr "Oppose") 3
    = ((join store_twice id0 (JStr "bob") (JStr "Oppose") 3).1,
       (join store_twice id0 (JStr "bob") (JStr "Oppose") 3).2).
Proof.
  split; [reflexivity |]. split; [reflexivity |].
  apply (join_idempotent store_twice id0 (JStr "bob") (JStr "Oppose") 3
           (join store_twice id0 (JStr "bob") (JStr "Oppose") 3).1
           (join store_twice id0 (JStr "bob") (JStr "Oppose") 3).2 8);
    reflexivity.
Defined.


(** X6. Switching sides rewrites the participant's [joinedDebate] document
    instead of adding one: after [join] with Support and then with Oppose,
    on a collection with at most one document for the identifier and name,
    there is exactly one such document, its [side] is ["Oppose"] and its
    [joinedAt] is the clock reading of the second call. *)
Theorem join_switch_record st id oid d name t1 t2 :
  truthy name = true →
  new_ObjectId id = Some oid →
  debateCollection st !! oid = Some d →
  (length (filter (joined_key id name) (joinedDebateCollection st)) ≤ 1)%nat →
  ∃ doc,
    filter (joined_key id name)
      (joinedDebateCollection
         (join (join st id name (JStr "Support") t1).2 id name (JStr "Oppose") t2).2)
      = [doc] ∧
    j_side doc = JStr "Oppose" ∧ j_joinedAt doc = t2.
Proof.
  intros Hname Hid Hd Hlen.
  rewrite (join_success st id oid d name "Support" t1) by (try split; auto).
  set (d1 := addToSet_field (toLowerCase "Support") name (pull_both name d)).
  rewrite (join_success _ id oid d1 name "Oppose" t2);
    [| split; auto | done | simpl; apply lookup_insert_eq].
  eexists. split.
  { simpl. apply upsert_joined_single; [done |].
    rewrite upsert_joined_single by done. simpl. lia. }
  split; reflexivity.
Qed.

Lemma join_switch_record_witness :
  truthy (JStr "alice") = true ∧
  new_ObjectId id0 = Some oid0 ∧
  debateCollection store0 !! oid0 = Some debate0 ∧
  (length (filter (joined_key id0 (JStr "alice"))
             (joinedDebateCollection store0)) ≤ 1)%nat ∧
  ∃ doc,
    filter (joined_key id0 (JStr "alice"))
      (joinedDebateCollection
         (join (join store0 id0 (JStr "alice") (JStr "Support") 4).2
               id0 (JStr "alice") (JStr "Oppose") 6).2)
      = [doc] ∧
    j_side doc = JStr "Oppose" ∧ j_joinedAt doc = 6.
Proof.
  split; [reflexivity |]. split; [reflexivity |]. split; [reflexivity |].
  split; [simpl; lia |].
  apply (join_switch_record store0 id0 oid0 debate0 (JStr "alice") 4 6);
    [reflexivity | reflexivity | reflexivity | simpl; lia].
Defined.

(** X7. The [joinedDebate] document is keyed by the identifier as it was
    written in the path, the debate by the [ObjectId] it spells.  Two
    different spellings of one [ObjectId] (hexadecimal digits in upper and
    in lower case) reach the same debate, and joining under both leaves two
    [joinedDebate] documents for one participant of one debate. *)
Theorem join_alias_two_records st id1 id2 oid d name s t1 t2 :
  id1 ≠ id2 →
  new_ObjectId id1 = Some oid →
  new_ObjectId id2 = Some oid →
  debateCollection st !! oid = Some d →
  accepted name (JStr s) →
  ∃ doc1 doc2 d2,
    findOne_joined id1 name
      (join (join st id1 name (JStr s) t1).2 id2 name (JStr s) t2).2 = Some doc1 ∧
    findOne_joined id2 name
      (join (join st id1 name (JStr s) t1).2 id2 name (JStr s) t2).2 = Some doc2 ∧
    j_debateId doc1 = id1 ∧ j_debateId doc2 = id2 ∧ doc1 ≠ doc2 ∧
    get_debate (join (join st id1 name (JStr s) t1).2 id2 name (JStr s) t2).2 id1
      = Sent 200 d2 ∧
    get_debate (join (join st id1 name (JStr s) t1).2 id2 name (JStr s) t2).2 id2
      = Sent 200 d2.
Proof.
  intros Hne Hid1 Hid2 Hd Hacc.
  rewrite (join_success st id1 oid d name s t1) by done.
  set (d1 := addToSet_field (toLowerCase s) name (pull_both name d)).
  rewrite (join_success _ id2 oid d1 name s t2);
    [| done | done | simpl; apply lookup_insert_eq].
  eexists _, _, (addToSet_field (toLowerCase s) name (pull_both name d1)).
  split.
  { unfold findOne_joined, joined_store. simpl.
    rewrite upsert_joined_other; [| done | congruence].
    by apply upsert_joined_head. }
  split.
  { unfold findOne_joined, joined_store. simpl. by apply upsert_joined_head. }
  split; [reflexivity |]. split; [reflexivity |].
  split; [intros Heq; inversion Heq; done |].
  unfold get_debate, joined_store. rewrite Hid1, Hid2. simpl.
  by rewrite lookup_insert_eq.
Qed.

Lemma join_alias_two_records_witness :
  id0 ≠ id0_upper ∧
  new_ObjectId id0 = Some oid0 ∧
  new_ObjectId id0_upper = Some oid0 ∧
  debateCollection store0 !! oid0 = Some debate0 ∧
  accepted (JStr "alice") (JStr "Support") ∧
  ∃ doc1 doc2 d2,
    findOne_joined id0 (JStr "alice")
      (join (join store0 id0 (JStr "alice") (JStr "Support") 1).2
            id0_upper (JStr "alice") (JStr "Support") 2).2 = Some doc1 ∧
    findOne_joined id0_upper (JStr "alice")
      (join (join store0 id0 (JStr "alice") (JStr "Support") 1).2
            id0_upper (JStr "alice") (JStr "Support") 2).2 = Some doc2 ∧
    j_debateId doc1 = id0 ∧ j_debateId doc2 = id0_upper ∧ doc1 ≠ doc2 ∧
    get_debate (join (join store0 id0 (JStr "alice") (JStr "Support") 1).2
                     id0_upper (JStr "alice") (JStr "Support") 2).2 id0
      = Sent 200 d2 ∧
    get_debate (join (join store0 id0 (JStr "alice") (JStr "Support") 1).2
                     id0_upper (JStr "alice") (JStr "Support") 2).2 id0_upper
      = Sent 200 d2.
Proof.
  split; [discriminate |]. split; [reflexivity |]. split; [reflexivity |].
  split; [reflexivity |]. split; [split; [reflexivity | left; reflexivity] |].
  apply (join_alias_two_records store0 id0 id0_upper oid0 debate0 (JStr "alice")
           "Support" 1 2);
    [discriminate | reflexivity | reflexivity | reflexivity
    | split; [reflexivity | left; reflexivity]].
Defined.



(** ** Identifiers in hexadecimal *)

Lemma hex_digit_char d : (d < 16)%N → hex_digit (hex_char d) = Some d.
Proof.
  intros Hd.
  destruct d as [|p]; [reflexivity |].
  do 4 (destruct p as [p|p|]; try reflexivity); lia.
Qed.

Lemma parse_hex_digits k n acc a :
  parse_hex a (hex_digits k n acc) =
  parse_hex (a * 16 ^ N.of_nat k + n mod 16 ^ N.of_nat k)%N acc.
Proof.
  revert n acc a. induction k as [|k IH]; intros n acc a.
  - simpl. f_equal. rewrite N.mod_1_r. lia.
  - cbn [hex_digits]. rewrite IH. cbn [parse_hex].
    rewrite hex_digit_char by (apply N.mod_lt; lia). f_equal.
    rewrite Nat2N.inj_succ, N.pow_succ_r'.
    rewrite (N.Div0.mod_mul_r n 16 (16 ^ N.of_nat k)). lia.
Qed.

Lemma length_hex_digits k n acc :
  String.length (hex_digits k n acc) = (k + String.length acc)%nat.
Proof.
  revert n acc. induction k as [|k IH]; intros n acc; [done |].
  cbn [hex_digits]. rewrite IH. simpl. lia.
Qed.

(** The identifier a reply carries, read back by [new ObjectId]. *)
Lemma new_ObjectId_toHexString (oid : ObjectId) :
  (oid < 16 ^ 24)%N → new_ObjectId (toHexString oid) = Some oid.
Proof.
  intros Hlt. unfold new_ObjectId, toHexString.
  rewrite decide_True by (by rewrite length_hex_digits).
  rewrite (parse_hex_digits 24 oid "" 0). simpl parse_hex.
  f_equal. change (N.of_nat 24) with 24%N. rewrite N.mod_small by done. lia.
Qed.

Lemma new_ObjectId_given id oid :
  new_ObjectId id = Some oid → query_given (Some id) = true.
Proof.
  unfold new_ObjectId. case_decide as Hlen; [|done]. intros _.
  destruct id; [done | reflexivity].
Qed.

(** ** Creating and reading debates *)

Lemma post_debates_created st insertedId b now :
  complete_body b →
  debateCollection st !! insertedId = None →
  post_debates st insertedId b now =
    (Sent 201 ("Debate created", toHexString insertedId),
     mkStore (<[insertedId := newDebate b now]> (debateCollection st))
             (joinedDebateCollection st) (argumentsCollection st)).
Proof.
  intros (Ht & Hd & Hg & Hc & Hu) Hnew. unfold post_debates.
  by rewrite Ht, Hd, Hg, Hc, Hu, Hnew.
Qed.



(** X11. A debate created by [POST /debates] is found by
    [GET /debates/:id] under the identifier the 201 reply carries: the reply
    sends the document built from the body, with empty [support] and
    [oppose] arrays and the clock reading as its creation time. *)
Theorem post_then_get st insertedId b now :
  complete_body b →
  debateCollection st !! insertedId = None →
  (insertedId < 16 ^ 24)%N →
  ∃ id st',
    post_debates st insertedId b now = (Sent 201 ("Debate created", id), st') ∧
    get_debate st' id = Sent 200 (newDebate b now) ∧
    support (newDebate b now) = [] ∧ oppose (newDebate b now) = [] ∧
    createdAt (newDebate b now) = now ∧
    Some (tags (newDebate b now)) = b_tags b.
Proof.
  intros Hb Hnew Hlt. eexists _, _.
  split; [by apply post_debates_created |].
  split.
  { unfold get_debate. rewrite new_ObjectId_toHexString by done. simpl.
    by rewrite lookup_insert_eq. }
  split; [reflexivity |]. split; [reflexivity |]. split; [reflexivity |].
  destruct Hb as (_ & _ & Hg & _). simpl.
  by destruct (b_tags b).
Qed.

Lemma post_then_get_witness :
  complete_body body0 ∧
  debateCollection store0 !! 7%N = None ∧
  (7 < 16 ^ 24)%N ∧
  ∃ id st',
    post_debates store0 7%N body0 12 = (Sent 201 ("Debate created", id), st') ∧
    get_debate st' id = Sent 200 (newDebate body0 12) ∧
    support (newDebate body0 12) = [] ∧ oppose (newDebate body0 12) = [] ∧
    createdAt (newDebate body0 12) = 12 ∧
    Some (tags (newDebate body0 12)) = b_tags body0.
Proof.
  assert (complete_body body0) as H by (repeat split).
  split; [exact H |]. split; [reflexivity |]. split; [reflexivity |].
  exact (post_then_get store0 7%N body0 12 H eq_refl eq_refl).
Defined.

(** X12. The identifier of a 201 reply is accepted by [join]: joining the
    debate just created answers 200 and leaves the name as the only
    participant, on the chosen side. *)
Theorem post_then_join st insertedId b now name s t :
  complete_body b →
  debateCollection st !! insertedId = None →
  (insertedId < 16 ^ 24)%N →
  accepted name (JStr s) →
  ∃ id st' d,
    post_debates st insertedId b now = (Sent 201 ("Debate created", id), st') ∧
    status (join st' id name (JStr s) t).1 = 200 ∧
    get_debate (join st' id name (JStr s) t).2 id = Sent 200 d ∧
    array_field (toLowerCase s) d = [name] ∧
    support d ++ oppose d = [name].
Proof.
  intros Hb Hnew Hlt Hacc. eexists _, _, _.
  split; [by apply post_debates_created |].
  rewrite (join_success _ (toHexString insertedId) insertedId (newDebate b now)
             name s t);
    [| done | by apply new_ObjectId_toHexString | simpl; apply lookup_insert_eq].
  split; [reflexivity |].
  split.
  { unfold get_debate. rewrite new_ObjectId_toHexString by done.
    unfold joined_store. simpl. by rewrite lookup_insert_eq. }
  unfold support, oppose.
  destruct (toLowerCase_side s (accepted_side _ _ Hacc)) as [[_ ->]|[_ ->]].
  - rewrite array_field_joined, array_field_joined_other by auto. done.
  - rewrite array_field_joined, array_field_joined_other by auto. done.
Qed.

Lemma post_then_join_witness :
  complete_body body0 ∧
  debateCollection store0 !! 7%N = None ∧
  (7 < 16 ^ 24)%N ∧
  accepted (JStr "alice") (JStr "Oppose") ∧
  ∃ id st' d,
    post_debates store0 7%N body0 12 = (Sent 201 ("Debate created", id), st') ∧
    status (join st' id (JStr "alice") (JStr "Oppose") 13).1 = 200 ∧
    get_debate (join st' id (JStr "alice") (JStr "Oppose") 13).2 id = Sent 200 d ∧
    array_field (toLowerCase "Oppose") d = [JStr "alice"] ∧
    support d ++ oppose d = [JStr "alice"].
Proof.
  assert (complete_body body0) as H by (repeat split).
  assert (accepted (JStr "alice") (JStr "Oppose")) as Ha
    by (split; [reflexivity | right; reflexivity]).
  split; [exact H |]. split; [reflexivity |]. split; [reflexivity |].
  split; [exact Ha |].
  exact (post_then_join store0 7%N body0 12 (JStr "alice") "Oppose" 13
           H eq_refl eq_refl Ha).
Defined.

(** X13. For a body that passes its guard, [join] answers with the status
    [GET /debates/:id] has for the same identifier: 500 for an identifier
    [ObjectId] refuses, 404 for a debate that is not stored, 200 for one
    that is. *)
Theorem join_status_as_get_debate st id name side now :
  accepted name side →
  status (join st id name side now).1 = reply_status (get_debate st id).
Proof.
  intros Hacc. unfold get_debate.
  destruct (join_cases st id name side now)
    as [Hrej|_ Hid|oid _ Hid Hd|oid d s _ Hs Hid Hd]; simpl.
  - done.
  - by rewrite Hid.
  - by rewrite Hid, Hd.
  - by rewrite Hid, Hd.
Qed.

Lemma join_status_as_get_debate_witness :
  accepted (JStr "alice") (JStr "Support") ∧
  status (join store0 "abc" (JStr "alice") (JStr "Support") 1).1
    = reply_status (get_debate store0 "abc").
Proof.
  assert (accepted (JStr "alice") (JStr "Support")) as Ha
    by (split; [reflexivity | left; reflexivity]).
  split; [exact Ha |].
  exact (join_status_as_get_debate store0 "abc" (JStr "alice") (JStr "Support") 1 Ha).
Defined.

(** X14. After a successful [join] under a name that is a string,
    [GET /joinedDebates] with that name and identifier sends the document
    the call wrote: the identifier, the name, the side of the request and
    the clock reading of the call. *)
Theorem join_then_get_joinedDebates st id n side now r st' :
  join st id (JStr n) side now = (r, st') →
  status r = 200 →
  ∃ doc,
    get_joinedDebates st' (Some n) (Some id) = Sent 200 doc ∧
    j_debateId doc = id ∧ j_name doc = JStr n ∧ j_side doc = side ∧
    j_joinedAt doc = now.
Proof.
  intros Hjoin Hok.
  destruct (join_200_inv _ _ _ _ _ _ _ Hjoin Hok)
    as (oid & d & s & Hacc & -> & Hid & Hd & -> & ->).
  eexists. split.
  { unfold get_joinedDebates.
    rewrite (new_ObjectId_given id oid Hid).
    assert (query_given (Some n) = true) as -> by (by destruct Hacc).
    simpl. unfold findOne_joined, joined_store. simpl.
    by rewrite upsert_joined_head. }
  done.
Qed.

Lemma join_then_get_joinedDebates_witness :
  join store0 id0 (JStr "alice") (JStr "Support") 9 =
    ((join store0 id0 (JStr "alice") (JStr "Support") 9).1,
     (join store0 id0 (JStr "alice") (JStr "Support") 9).2) ∧
  status (join store0 id0 (JStr "alice") (JStr "Support") 9).1 = 200 ∧
  ∃ doc,
    get_joinedDebates (join store0 id0 (JStr "alice") (JStr "Support") 9).2
      (Some "alice") (Some id0) = Sent 200 doc ∧
    j_debateId doc = id0 ∧ j_name doc = JStr "alice" ∧
    j_side doc = JStr "Support" ∧ j_joinedAt doc = 9.
Proof.
  split; [reflexivity |]. split; [reflexivity |].
  apply (join_then_get_joinedDebates store0 id0 "alice" (JStr "Support") 9
           (join store0 id0 (JStr "alice") (JStr "Support") 9).1
           (join store0 id0 (JStr "alice") (JStr "Support") 9).2);
    reflexivity.
Defined.



(** ** Further properties of the leaderboard *)

Section LeaderboardMore.

Implicit Types (recs : list VoteRecord) (u : string) (e : LeaderboardEntry).

#[local] Instance votes_desc_trans : Transitive votes_desc.
Proof. intros a b c. unfold votes_desc. lia. Qed.

#[local] Instance votes_desc_total : Total votes_desc.
Proof. intros a b. unfold votes_desc. lia. Qed.

Lemma sort_stage_strongly_sorted (l : list LeaderboardEntry) :
  StronglySorted votes_desc (sort_stage l).
Proof. apply StronglySorted_merge_sort; apply _. Qed.

Lemma StronglySorted_lookup {A} (R : relation A) (l : list A) i j x y :
  StronglySorted R l → l !! i = Some x → l !! j = Some y → (i < j)%nat → R x y.
Proof.
  intros Hs. revert i j. induction Hs as [|a l Hs IH Hall]; intros i j Hi Hj Hlt.
  - done.
  - destruct j as [|j]; [lia |]. simpl in Hj. destruct i as [|i]; simpl in Hi.
    + inversion Hi; subst. rewrite Forall_forall in Hall. apply Hall.
      by eapply list_elem_of_lookup_2.
    + apply (IH i j); [done | done | lia].
Qed.

Lemma sum_of_Permutation {A} (f : A → Z) (l k : list A) :
  l ≡ₚ k → sum_of f l = sum_of f k.
Proof.
  induction 1 as [|a l k _ IH|a b l|l k m _ IH1 _ IH2]; simpl.
  - done.
  - unfold sum_of in *. simpl. by rewrite IH.
  - unfold sum_of. simpl. lia.
  - congruence.
Qed.

Lemma sum_of_ext {A} (f g : A → Z) (l : list A) :
  (∀ a, f a = g a) → sum_of f l = sum_of g l.
Proof.
  intros Hfg. induction l as [|a l IH]; [done |].
  unfold sum_of in *. simpl. by rewrite Hfg, IH.
Qed.

Lemma filter_all {A} (P : A → Prop) `{!∀ x, Decision (P x)} (l : list A) :
  (∀ a, a ∈ l → P a) → filter P l = l.
Proof.
  induction l as [|a l IH]; intros Hall; [done |].
  rewrite filter_cons_True by (apply Hall; left).
  f_equal. apply IH. intros b Hb. apply Hall. by right.
Qed.

Lemma aggregate_match start recs :
  aggregate start recs = aggregate None (match_stage start recs).
Proof. done. Qed.

Lemma aggregate_Permutation recs :
  aggregate None recs ≡ₚ
  entry_of recs <$> group_keys row_userName (group_per_debate recs).
Proof.
  unfold aggregate, match_stage, sort_stage.
  by rewrite merge_sort_Permutation, group_per_user_entries.
Qed.

Lemma aggregate_votes recs :
  sum_of totalVotes (aggregate None recs) = sum_of votes recs.
Proof.
  rewrite (sum_of_Permutation _ _ _ (aggregate_Permutation recs)).
  rewrite sum_of_fmap. simpl. unfold votes_of_user.
  rewrite (sum_of_groups userName votes) by apply NoDup_group_keys.
  f_equal. apply filter_all. intros r Hr.
  apply user_keys. by apply list_elem_of_fmap_2.
Qed.

Lemma vote_keys_set recs :
  (list_to_set (group_keys vote_key recs) : gset (string * string))
  = list_to_set (vote_key <$> recs).
Proof.
  apply set_eq. intros k.
  rewrite !elem_of_list_to_set, elem_of_group_keys, list_elem_of_fmap.
  split; intros (r & H1 & H2); exists r; done.
Qed.

Lemma aggregate_debates recs :
  sum_of debatesParticipated (aggregate None recs) =
  Z.of_nat (size (list_to_set (vote_key <$> recs) : gset (string * string))).
Proof.
  rewrite (sum_of_Permutation _ _ _ (aggregate_Permutation recs)).
  rewrite sum_of_fmap. simpl.
  rewrite <- vote_keys_set, size_list_to_set by apply NoDup_group_keys.
  transitivity
    (sum_of (λ u, sum_of (λ _, 1)
                    (filter (λ k : string * string, k.1 = u)
                            (group_keys vote_key recs)))
            (group_keys row_userName (group_per_debate recs))).
  - apply sum_of_ext. intros u.
    by rewrite <- user_rows_count, sum_of_fmap.
  - rewrite (sum_of_groups fst (λ _, 1)) by apply NoDup_group_keys.
    rewrite filter_all; [apply sum_of_one |].
    intros k Hk. apply elem_of_group_keys in Hk as (r & Hr & <-).
    apply user_keys. by apply (list_elem_of_fmap_2 userName).
Qed.

End LeaderboardMore.

(** X16. Whatever the filter, the entries of the leaderboard come in
    descending order of [totalVotes]: an entry never has more votes than one
    that stands before it. *)
Theorem leaderboard_sorted h now q st i j e1 e2 :
  (leaderboard h now q st).2 !! i = Some e1 →
  (leaderboard h now q st).2 !! j = Some e2 →
  (i < j)%nat →
  totalVotes e2 ≤ totalVotes e1.
Proof.
  intros Hi Hj Hlt. unfold leaderboard, aggregate in *. simpl in *.
  apply (StronglySorted_lookup votes_desc _ i j e1 e2
           (sort_stage_strongly_sorted _) Hi Hj Hlt).
Qed.

Lemma leaderboard_sorted_witness :
  (leaderboard utc_host now_ex (QStr "all") store_dated).2 !! 0%nat
    = Some (mkEntry "bob" 4 1) ∧
  (leaderboard utc_host now_ex (QStr "all") store_dated).2 !! 1%nat
    = Some (mkEntry "alice" 1 1) ∧
  (0 < 1)%nat ∧
  totalVotes (mkEntry "alice" 1 1) ≤ totalVotes (mkEntry "bob" 4 1).
Proof.
  split; [reflexivity |]. split; [reflexivity |]. split; [lia |].
  apply (leaderboard_sorted utc_host now_ex (QStr "all") store_dated 0 1);
    [reflexivity | reflexivity | lia].
Defined.

(** X17. The leaderboard loses and invents no vote: the [totalVotes] of its
    entries add up to the votes of the records that pass the [$match]
    stage. *)
Theorem leaderboard_votes_conserved h now q st :
  sum_of totalVotes (leaderboard h now q st).2 =
  sum_of votes
    (match_stage (startDate h now (filter_or_all q)) (argumentsCollection st)).
Proof.
  unfold leaderboard. simpl. rewrite aggregate_match. apply aggregate_votes.
Qed.

(** X18. The [debatesParticipated] of the entries add up to the number of
    distinct pairs of user and debate among the records that pass the
    [$match] stage. *)
Theorem leaderboard_debates_counted h now q st :
  sum_of debatesParticipated (leaderboard h now q st).2 =
  Z.of_nat
    (size (list_to_set
             (vote_key <$> match_stage (startDate h now (filter_or_all q))
                             (argumentsCollection st))
           : gset (string * string))).
Proof.
  unfold leaderboard. simpl. rewrite aggregate_match. apply aggregate_debates.
Qed.

(** X19. The leaderboard has one entry for each user with a record that
    passes the [$match] stage and no other: its length is the number of
    distinct users of those records, and it is empty when there is none. *)
Theorem leaderboard_length h now q st :
  length (leaderboard h now q st).2 =
  size (list_to_set
          (userName <$> match_stage (startDate h now (filter_or_all q))
                          (argumentsCollection st))
        : gset string).
Proof.
  unfold leaderboard. simpl. rewrite aggregate_match.
  set (recs := match_stage _ _).
  rewrite (Permutation_length (aggregate_Permutation recs)), length_fmap.
  rewrite <- (size_list_to_set (C := gset string)) by apply NoDup_group_keys.
  f_equal. apply set_eq. intros u.
  rewrite !elem_of_list_to_set. apply user_keys.
Qed.

(** ** Dates: the day one month back *)

Lemma DayFromYear_succ y : DayFromYear (y + 1) = DayFromYear y + DaysInYear y.
Proof.
  unfold DayFromYear, DaysInYear.
  destruct (Z.eqb_spec (y mod 4) 0), (Z.eqb_spec (y mod 100) 0),
    (Z.eqb_spec (y mod 400) 0); simpl; Z.div_mod_to_equations; lia.
Qed.

Lemma InLeapYear_cases t : InLeapYear t = 0 ∨ InLeapYear t = 1.
Proof. unfold InLeapYear. case_match; auto. Qed.

Lemma days_of_previous_month_range t :
  28 ≤ days_of_previous_month (InLeapYear t) (MonthFromTime t) ≤ 31.
Proof.
  pose proof (MonthFromTime_range t) as Hm.
  assert (∃ m, MonthFromTime t = m ∧ 0 ≤ m ≤ 11) as (m & -> & Hr) by eauto.
  destruct (InLeapYear_cases t) as [-> | ->];
    assert (m = 0 ∨ m = 1 ∨ m = 2 ∨ m = 3 ∨ m = 4 ∨ m = 5 ∨ m = 6 ∨ m = 7
            ∨ m = 8 ∨ m = 9 ∨ m = 10 ∨ m = 11) as Hc by lia;
    repeat (destruct Hc as [-> | Hc]; [vm_compute; split; discriminate |]);
    subst m; vm_compute; split; discriminate.
Qed.

(** [new Date(year, month - 1, date)] is today less the days of the month
    before. *)
Lemma MakeDay_previous_month t :
  MakeDay (YearFromTime t) (MonthFromTime t - 1) (DateFromTime t) =
  Day t - days_of_previous_month (InLeapYear t) (MonthFromTime t).
Proof.
  pose proof (MonthFromTime_range t) as Hm.
  unfold MakeDay, days_of_previous_month, DateFromTime, DayWithinYear.
  destruct (Z.eqb_spec (MonthFromTime t) 0) as [H0|H0].
  - rewrite H0. change ((0 - 1) / 12) with (-1). change ((0 - 1) mod 12) with 11.
    pose proof (DayFromYear_succ (YearFromTime t + -1)) as Hs.
    replace (YearFromTime t + -1 + 1) with (YearFromTime t) in Hs by lia.
    unfold DaysInYear in *. simpl month_start.
    destruct (Z.eqb_spec ((YearFromTime t + -1) mod 4) 0),
      (Z.eqb_spec ((YearFromTime t + -1) mod 100) 0),
      (Z.eqb_spec ((YearFromTime t + -1) mod 400) 0); simpl in *; lia.
  - rewrite Z.div_small, Z.mod_small, Z.add_0_r by lia.
    unfold InLeapYear. lia.
Qed.

Lemma startDate_monthly h now :
  100 ≤ getFullYear h now →
  startDate h now (QStr "monthly") =
  Some (UTC h ((Day (LocalTime h now)
                - days_of_previous_month (InLeapYear (LocalTime h now))
                                         (getMonth h now)) * msPerDay)).
Proof.
  intros Hy. unfold startDate.
  rewrite decide_False by discriminate. rewrite decide_True by done.
  unfold new_Date, MakeFullYear, MakeDate.
  replace ((0 <=? getFullYear h now) && (getFullYear h now <=? 99)) with false
    by (symmetry; apply andb_false_iff; right; apply Z.leb_gt; lia).
  unfold getFullYear, getMonth, getDate.
  rewrite MakeDay_previous_month. do 2 f_equal. lia.
Qed.

(** X20. With [filter=monthly], for a clock in the year 100 or later, the
    leaderboard is computed from exactly the records whose [createdAt] is at
    or after the local midnight that opens the day as many days before the
    current one as the previous calendar month has: 28 to 31 days back. *)
Theorem leaderboard_monthly_window h now st :
  100 ≤ getFullYear h now →
  28 ≤ days_of_previous_month (InLeapYear (LocalTime h now)) (getMonth h now)
     ≤ 31 ∧
  leaderboard h now (QStr "monthly") st =
    (200, aggregate None
            (filter (λ r, UTC h ((Day (LocalTime h now)
                                  - days_of_previous_month
                                      (InLeapYear (LocalTime h now))
                                      (getMonth h now)) * msPerDay)
                          ≤ v_createdAt r)
                    (argumentsCollection st))).
Proof.
  intros Hy. split; [apply days_of_previous_month_range |].
  unfold leaderboard. simpl filter_or_all.
  by rewrite (startDate_monthly h now Hy).
Qed.

Lemma leaderboard_monthly_window_witness :
  100 ≤ getFullYear utc_host now_ex ∧
  28 ≤ days_of_previous_month (InLeapYear (LocalTime utc_host now_ex))
         (getMonth utc_host now_ex) ≤ 31 ∧
  leaderboard utc_host now_ex (QStr "monthly") store_dated =
    (200, aggregate None
            (filter (λ r, UTC utc_host
                            ((Day (LocalTime utc_host now_ex)
                              - days_of_previous_month
                                  (InLeapYear (LocalTime utc_host now_ex))
                                  (getMonth utc_host now_ex)) * msPerDay)
                          ≤ v_createdAt r)
                    (argumentsCollection store_dated))).
Proof.
  assert (100 ≤ getFullYear utc_host now_ex) as H by (vm_compute; discriminate).
  split; [exact H |].
  exact (leaderboard_monthly_window utc_host now_ex store_dated H).
Defined.

(** X21. On a host whose conversion from local time to UTC keeps the order
    of times, for a clock in the year 100 or later, every record the
    [weekly] leaderboard counts is counted by the [monthly] one. *)
Theorem weekly_within_monthly h now st r :
  (∀ a b, a ≤ b → UTC h a ≤ UTC h b) →
  100 ≤ getFullYear h now →
  r ∈ match_stage (startDate h now (filter_or_all (QStr "weekly")))
        (argumentsCollection st) →
  r ∈ match_stage (startDate h now (filter_or_all (QStr "monthly")))
        (argumentsCollection st).
Proof.
  intros Hmono Hy. simpl filter_or_all.
  rewrite (startDate_weekly h now Hy), (startDate_monthly h now Hy). simpl.
  rewrite !list_elem_of_filter. intros [Hle Hr]. split; [|done].
  pose proof (days_of_previous_month_range (LocalTime h now)) as Hd.
  etrans; [|exact Hle]. apply Hmono. unfold getMonth, msPerDay. lia.
Qed.

Lemma weekly_within_monthly_witness :
  (∀ a b, a ≤ b → UTC utc_host a ≤ UTC utc_host b) ∧
  100 ≤ getFullYear utc_host now_ex ∧
  vote_old ∈ match_stage (startDate utc_host now_ex (filter_or_all (QStr "weekly")))
               (argumentsCollection store_dated) ∧
  vote_old ∈ match_stage (startDate utc_host now_ex (filter_or_all (QStr "monthly")))
               (argumentsCollection store_dated).
Proof.
  assert (∀ a b, a ≤ b → UTC utc_host a ≤ UTC utc_host b) as Hm
    by (intros a b Hab; unfold UTC; simpl; lia).
  assert (100 ≤ getFullYear utc_host now_ex) as Hy by (vm_compute; discriminate).
  assert (vote_old ∈ match_stage
            (startDate utc_host now_ex (filter_or_all (QStr "weekly")))
            (argumentsCollection store_dated)) as Hw
    by (vm_compute; apply list_elem_of_here).
  split; [exact Hm |]. split; [exact Hy |]. split; [exact Hw |].
  exact (weekly_within_monthly utc_host now_ex store_dated vote_old Hm Hy Hw).
Defined.

(** ** What the writing routes leave alone *)



Lemma complete_body_guard b :
  negb (truthy (b_title b)) || negb (truthy (b_description b))
  || negb (tags_truthy (b_tags b)) || negb (truthy (b_category b))
  || negb (truthy (b_duration b)) = false ↔ complete_body b.
Proof.
  unfold complete_body.
  rewrite !orb_false_iff, !negb_false_iff. tauto.
Qed.

(** X23. [POST /debates] answers 201 exactly when the title, description,
    category and duration are truthy, the tags are present (an empty array
    of tags will do), and the generated [_id] is new to the collection; on
    every other answer the store is exactly what it was. *)
Theorem post_debates_status st insertedId b now :
  (reply_status (post_debates st insertedId b now).1 = 201 ↔
     complete_body b ∧ debateCollection st !! insertedId = None) ∧
  (reply_status (post_debates st insertedId b now).1 = 400 ↔ ¬ complete_body b) ∧
  (reply_status (post_debates st insertedId b now).1 ≠ 201 →
     (post_debates st insertedId b now).2 = st) ∧
  reply_status (post_debates store0 7%N body_no_tags now).1 = 201 ∧
  reply_status (post_debates store0 7%N body_no_title now).1 = 400.
Proof.
  split_and!; [| | |reflexivity..]; unfold post_debates;
    destruct (_ || _) eqn:Hg; simpl.
  - split; [discriminate |]. intros [Hb _].
    apply complete_body_guard in Hb. congruence.
  - apply complete_body_guard in Hg.
    destruct (debateCollection st !! insertedId); simpl;
      (split; [try discriminate; done | by intros [_ ?]]).
  - split; [|done]. intros _ Hb. apply complete_body_guard in Hb. congruence.
  - apply complete_body_guard in Hg.
    destruct (debateCollection st !! insertedId); simpl;
      (split; [discriminate | done]).
  - done.
  - destruct (debateCollection st !! insertedId); simpl; done.
Qed.
